(** * NyquistSeriesRenderer: octave-band accumulation and vertex emission

    A shallow embedding of [src/chart/opengl/nyquistseriesrenderer.cpp]:
    the closures [accumulate], [beforeSpline] and [collected] of
    [NyquistSeriesRenderer::renderSeries], the buffer sizing at the head of
    the pass, the upload/draw tail, and [NyquistSeriesRenderer::synchronize].

    Numbers are the ones of the code: [unsigned int] is an [N] reduced
    modulo 2^32 after every operation, [float] is IEEE-754 binary32 through
    the executable specification [SpecFloat] (precision 24, emax 128). *)

From Stdlib Require Import ZArith NArith Floats.SpecFloat.
From stdpp Require Import base option list numbers strings.

Local Open Scope N_scope.

(** ** 32-bit unsigned arithmetic *)

Definition wrap32 (n : N) : N := n mod 2 ^ 32.

(** ** binary32 floats *)

Module F32.
Definition prec : Z := 24.
Definition emax : Z := 128.

Definition float : Type := spec_float.

Definition zero : float := S754_zero false.
Definition add : float -> float -> float := SFadd prec emax.
Definition mul : float -> float -> float := SFmul prec emax.
Definition div : float -> float -> float := SFdiv prec emax.
Definition sqrt : float -> float := SFsqrt prec emax.
Definition eqb : float -> float -> bool := SFeqb.

(** Conversion of an [unsigned int] operand to [float] (round to nearest
    even), as the usual arithmetic conversions do in [x / count]. *)
Definition of_uint (n : N) : float :=
  binary_normalize prec emax (Z.of_N n) 0 false.

Definition is_nan (x : float) : bool :=
  match x with S754_nan => true | _ => false end.

Definition is_finite (x : float) : bool :=
  match x with S754_zero _ | S754_finite _ _ _ => true | _ => false end.

Definition is_zero (x : float) : bool :=
  match x with S754_zero _ => true | _ => false end.
End F32.

Abbreviation float := F32.float.

(** ** The [complex] value class

    Modelled from the spec: the [complex] class (fields [real] and [imag],
    [+=], division and multiplication by a [float]) is declared outside this
    file; the operations are the componentwise ones the spec's phasor sums
    and [meanPhase = phaseSum / count] describe.  Its modulus [abs()] is kept
    as a parameter of the development (see [Section Renderer]). *)

Record complex : Type := Complex { real : float; imag : float }.

Definition complex_of_int_0 : complex := Complex F32.zero F32.zero.

Definition complex_add (a b : complex) : complex :=
  Complex (F32.add (real a) (real b)) (F32.add (imag a) (imag b)).

Definition complex_div_float (a : complex) (r : float) : complex :=
  Complex (F32.div (real a) r) (F32.div (imag a) r).

Definition complex_mul_float (a : complex) (r : float) : complex :=
  Complex (F32.mul (real a) r) (F32.mul (imag a) r).

(** ** The measurement source

    Modelled from the spec: the [Source] class is declared outside this
    file; these are the members the spec lists for it, of which the pass
    calls [active], [size], [phase], [magnitudeRaw] and [coherence]. *)

Module Source.
Record t : Type := Make {
  active : bool;
  size : N;
  phase : N -> complex;
  magnitudeRaw : N -> float;
  coherence : N -> float
}.
End Source.

(** ** The configuration owner reached through the item's parent

    Modelled from the spec: [NyquistPlot] is declared outside this file and
    exposes [pointsPerOctave()], [coherence()] and [coherenceThreshold()]. *)

Module NyquistPlot.
Record t : Type := Make {
  pointsPerOctave : N;
  coherence : bool;
  coherenceThreshold : float
}.
End NyquistPlot.

Inductive QObject : Type :=
| IsNyquistPlot (plot : NyquistPlot.t)
| OtherObject.

Record QQuickFramebufferObject : Type := { parent : option QObject }.

(** [dynamic_cast<NyquistPlot *>(p)]: null for a null [p] and for an object
    of another class. *)
Definition dynamic_cast_NyquistPlot (p : option QObject) : option NyquistPlot.t :=
  match p with
  | Some (IsNyquistPlot plot) => Some plot
  | Some OtherObject => None
  | None => None
  end.

(** ** [struct NyquistSplineValue] *)

Record NyquistSplineValue : Type := MkValue {
  m_phase : complex;
  m_magnitude : float
}.

(** [operator+=(const complex &)] *)
Definition value_add_phase (v : NyquistSplineValue) (rh : complex) : NyquistSplineValue :=
  {| m_phase := complex_add (m_phase v) rh; m_magnitude := m_magnitude v |}.

(** [operator+=(const float &)] *)
Definition value_add_magnitude (v : NyquistSplineValue) (rh : float) : NyquistSplineValue :=
  {| m_phase := m_phase v; m_magnitude := F32.add (m_magnitude v) rh |}.

(** [reset()] *)
Definition reset (v : NyquistSplineValue) : NyquistSplineValue :=
  {| m_phase := complex_of_int_0; m_magnitude := F32.zero |}.

(** ** Arrays of four, as handed to [collected] *)

Record array4 (A : Type) : Type := Array4 { at0 : A; at1 : A; at2 : A; at3 : A }.
Arguments Array4 {A} _ _ _ _.
Arguments at0 {A} _.
Arguments at1 {A} _.
Arguments at2 {A} _.
Arguments at3 {A} _.

(** ** The frame of one render pass

    Everything the three closures capture by reference: the renderer's
    [m_vertices] and the locals [maxBufferSize], [i], [verticiesCount],
    [value] and [coherence].  [critical] collects the [qCritical] reports. *)

Record Frame : Type := MkFrame {
  m_vertices : list float;
  maxBufferSize : N;
  i : N;
  verticiesCount : N;
  value : NyquistSplineValue;
  coherence : float;
  critical : list string
}.

(** ** Stores into [m_vertices]

    [m_vertices[k] = v] and [memcpy] are defined only inside the vector;
    a store outside it has no defined behaviour and is [None] here. *)

Definition store (k : N) (v : float) (l : list float) : option (list float) :=
  if decide (k < N.of_nat (length l)) then Some (<[N.to_nat k := v]> l) else None.

Fixpoint store_seq (k : N) (vs : list float) (l : list float) : option (list float) :=
  match vs with
  | [] => Some l
  | v :: vs' => l' ← store k v l; store_seq (k + 1) vs' l'
  end.

(** [std::memcpy(m_vertices.data() + off, c, 4 * 4)]: the destination is
    reached by pointer arithmetic, which does not wrap at 32 bits. *)
Definition memcpy4 (off : N) (c : array4 float) (l : list float) : option (list float) :=
  store_seq off [at0 c; at1 c; at2 c; at3 c] l.

(** [m_vertices.resize(n)]: truncate, or extend with value-initialised
    floats. *)
Definition resize (n : N) (l : list float) : list float :=
  take (N.to_nat n) l ++ replicate (N.to_nat n - length l)%nat F32.zero.

(** ** The renderer object

    [XYSeriesRenderer] is the base sub-object (the members this file uses
    but does not declare); [NyquistSeriesRenderer] adds the three
    configuration members set by [synchronize]. *)

Module XYSeriesRenderer.
Record t : Type := Make {
  m_item : QQuickFramebufferObject;
  m_source : Source.t;
  m_vertices : list float;
  m_refreshBuffers : bool
}.
End XYSeriesRenderer.

Module NyquistSeriesRenderer.
Record t : Type := Make {
  base : XYSeriesRenderer.t;
  m_pointsPerOctave : N;
  m_coherenceThreshold : float;
  m_coherence : bool
}.
End NyquistSeriesRenderer.

(** The constructor: [m_pointsPerOctave(0), m_coherenceThreshold(0),
    m_coherence(false)] over a given base sub-object. *)
Definition NyquistSeriesRenderer_new (b : XYSeriesRenderer.t) : NyquistSeriesRenderer.t :=
  NyquistSeriesRenderer.Make b 0 F32.zero false.

(** ** OpenGL calls issued by a pass, in order *)

Inductive GLCall : Type :=
| SetUniformMatrix
| SetUniformScreen
| SetUniformWidth
| SetUniformCoherenceThreshold (threshold : float)
| SetUniformCoherenceAlpha (gate : bool)
| GenBuffers
| GenVertexArrays
| BindVertexArray
| BindBuffer
| BufferData (floats : N)
| VertexAttribPointer (index : N) (components : N) (strideFloats : N) (offsetFloats : N)
| BufferSubData (data : list float)
| EnableVertexAttribArray (index : N)
| DrawArrays (first : N) (count : N)
| DisableVertexAttribArray (index : N).

(** What one call of [renderSeries] leaves behind. *)
Record Pass : Type := MkPass {
  this : NyquistSeriesRenderer.t;
  drawn : N;
  calls : list GLCall;
  reports : list string
}.

(** ** The octave iterator seen from this file

    [iterateForSpline] belongs to the base renderer.  It receives
    [m_pointsPerOctave], the addresses of [value] and [coherence] and the
    three closures; whatever it does with them is a finite schedule of
    closure calls, loads and stores through the two addresses. *)

Inductive script : Type :=
| Return
| CallAccumulate (idx : N) (k : script)
| CallBeforeSpline (count : N) (k : complex -> script)
| CallCollected (f1 f2 : float) (ac : array4 complex) (c : array4 float) (k : script)
| LoadValue (k : NyquistSplineValue -> script)
| LoadCoherence (k : float -> script)
| StoreValue (v : NyquistSplineValue) (k : script)
| StoreCoherence (c : float) (k : script).

(** ** Concrete collaborators used to run the model

    A modulus for [complex], a base [synchronize] and a small octave
    iterator; they stand where the program links the real ones and serve
    to evaluate the definitions on concrete inputs. *)

Module Sample.
(** [sqrt(real^2 + imag^2)] *)
Definition abs (c : complex) : float :=
  F32.sqrt (F32.add (F32.mul (real c) (real c)) (F32.mul (imag c) (imag c))).

(** Base [synchronize]: remember the item. *)
Definition base_synchronize (item : QQuickFramebufferObject)
    (b : XYSeriesRenderer.t) : XYSeriesRenderer.t :=
  XYSeriesRenderer.Make item (XYSeriesRenderer.m_source b)
    (XYSeriesRenderer.m_vertices b) (XYSeriesRenderer.m_refreshBuffers b).

(** Close the given bands in order; every fourth closed band completes a
    segment of the four latest control points. *)
Fixpoint close_bands (bands : list (list N)) (pts : list complex) (cs : list float)
    : script :=
  match bands with
  | [] => Return
  | band :: rest =>
      foldr CallAccumulate
        (CallBeforeSpline (N.of_nat (length band)) (fun p =>
         LoadCoherence (fun c =>
           match pts, cs with
           | [p0; p1; p2], [c0; c1; c2] =>
               CallCollected F32.zero F32.zero
                 (Array4 p0 p1 p2 p) (Array4 c0 c1 c2 c) (close_bands rest [] [])
           | _, _ => close_bands rest (pts ++ [p]) (cs ++ [c])
           end)))
        band
  end.

(** Bands of [width] consecutive bins starting at [from]. *)
Fixpoint bands_from (from : N) (width : nat) (n : nat) : list (list N) :=
  match n with
  | O => []
  | S n' => map N.of_nat (seq (N.to_nat from) width)
            :: bands_from (from + N.of_nat width) width n'
  end.

(** One bin per band over the whole source. *)
Definition iterate (src : Source.t) (pointsPerOctave : N) : script :=
  close_bands (bands_from 0 1 (N.to_nat (Source.size src))) [] [].

Definition one : float := F32.of_uint 1.

(** [n] bins of phase [(1, 0)], magnitude [1] and coherence [1]. *)
Definition unit_source (n : N) : Source.t :=
  Source.Make true n (fun _ => Complex one F32.zero) (fun _ => one) (fun _ => one).

Definition item_of (p : option QObject) : QQuickFramebufferObject :=
  {| parent := p |}.

Definition renderer (src : Source.t) (pointsPerOctave : N) (threshold : float)
    (gate : bool) (vertices : list float) : NyquistSeriesRenderer.t :=
  NyquistSeriesRenderer.Make
    (XYSeriesRenderer.Make (item_of None) src vertices true)
    pointsPerOctave threshold gate.

(** Two bins of opposite phase [(1, 0)] and [(-1, 0)], magnitude [1]. *)
Definition cancelling_source : Source.t :=
  Source.Make true 2
    (fun b => if b =? 0 then Complex one F32.zero else Complex (SFopp one) F32.zero)
    (fun _ => one) (fun _ => one).

Definition two : float := F32.of_uint 2.
Definition three : float := F32.of_uint 3.

Definition points : array4 complex :=
  Array4 (Complex one two) (Complex two three) (Complex three one) (Complex one one).

Definition controls : array4 float := Array4 one two three one.

(** A frame whose cursor is already past the capacity. *)
Definition overrun_frame : Frame :=
  MkFrame [] 0 12 1 (MkValue (Complex one two) three) two [].
End Sample.

(** ** The renderer's code *)

Section Renderer.

(** [complex::abs()] *)
Variable complex_abs : complex -> float.

(** [iterateForSpline<NyquistSplineValue, complex>]: the schedule it
    follows for a given source and [pointsPerOctave]. *)
Variable iterateForSpline : Source.t -> N -> script.

(** [XYSeriesRenderer::synchronize] on the base sub-object. *)
Variable XYSeriesRenderer_synchronize :
  QQuickFramebufferObject -> XYSeriesRenderer.t -> XYSeriesRenderer.t.

(** [unsigned int maxBufferSize = m_pointsPerOctave * 12 * 12] *)
Definition computeMaxBufferSize (pointsPerOctave : N) : N :=
  wrap32 (wrap32 (pointsPerOctave * 12) * 12).

(** The [accumulate] closure. *)
Definition accumulate (src : Source.t) (idx : N) (fr : Frame) : Frame :=
  let v1 := value_add_phase (value fr) (Source.phase src idx) in
  let v2 := value_add_magnitude v1 (Source.magnitudeRaw src idx) in
  {| m_vertices := m_vertices fr;
     maxBufferSize := maxBufferSize fr;
     i := i fr;
     verticiesCount := verticiesCount fr;
     value := v2;
     coherence := F32.add (coherence fr) (Source.coherence src idx);
     critical := critical fr |}.

(** The [beforeSpline] closure; [count] reaches both divisions as a
    [float]. *)
Definition beforeSpline (v : NyquistSplineValue) (coh : float) (count : N) : complex :=
  let c := complex_div_float (m_phase v) (F32.of_uint count) in
  let c := complex_div_float c (complex_abs c) in
  let c := complex_mul_float c (F32.div (m_magnitude v) (F32.of_uint count)) in
  c.

(** The [collected] closure.  [m_vertices[i + k]] indexes with the
    [unsigned int] sum. *)
Definition collected (f1 f2 : float) (ac : array4 complex) (c : array4 float)
    (fr : Frame) : option Frame :=
  if decide (maxBufferSize fr < i fr) then
    Some {| m_vertices := m_vertices fr;
            maxBufferSize := maxBufferSize fr;
            i := i fr;
            verticiesCount := verticiesCount fr;
            value := value fr;
            coherence := coherence fr;
            critical := critical fr ++ ["out of range"%string] |}
  else
    l ← store (wrap32 (i fr + 0)) (real (at0 ac)) (m_vertices fr);
    l ← store (wrap32 (i fr + 1)) (real (at1 ac)) l;
    l ← store (wrap32 (i fr + 2)) (real (at2 ac)) l;
    l ← store (wrap32 (i fr + 3)) (real (at3 ac)) l;
    l ← store (wrap32 (i fr + 4)) (imag (at0 ac)) l;
    l ← store (wrap32 (i fr + 5)) (imag (at1 ac)) l;
    l ← store (wrap32 (i fr + 6)) (imag (at2 ac)) l;
    l ← store (wrap32 (i fr + 7)) (imag (at3 ac)) l;
    l ← memcpy4 (i fr + 8) c l;
    Some {| m_vertices := l;
            maxBufferSize := maxBufferSize fr;
            i := wrap32 (i fr + 12);
            verticiesCount := wrap32 (verticiesCount fr + 1);
            value := reset (value fr);
            coherence := F32.zero;
            critical := critical fr |}.

Definition set_value (v : NyquistSplineValue) (fr : Frame) : Frame :=
  {| m_vertices := m_vertices fr; maxBufferSize := maxBufferSize fr; i := i fr;
     verticiesCount := verticiesCount fr; value := v; coherence := coherence fr;
     critical := critical fr |}.

Definition set_coherence (c : float) (fr : Frame) : Frame :=
  {| m_vertices := m_vertices fr; maxBufferSize := maxBufferSize fr; i := i fr;
     verticiesCount := verticiesCount fr; value := value fr; coherence := c;
     critical := critical fr |}.

(** Running the iterator's schedule against the closures. *)
Fixpoint run (src : Source.t) (s : script) (fr : Frame) : option Frame :=
  match s with
  | Return => Some fr
  | CallAccumulate idx k => run src k (accumulate src idx fr)
  | CallBeforeSpline count k =>
      run src (k (beforeSpline (value fr) (coherence fr) count)) fr
  | CallCollected f1 f2 ac c k => fr' ← collected f1 f2 ac c fr; run src k fr'
  | LoadValue k => run src (k (value fr)) fr
  | LoadCoherence k => run src (k (coherence fr)) fr
  | StoreValue v k => run src k (set_value v fr)
  | StoreCoherence c k => run src k (set_coherence c fr)
  end.

(** The frame at the call of [iterateForSpline]. *)
Definition enter (vertices : list float) (pointsPerOctave : N) : Frame :=
  let maxBufferSize := computeMaxBufferSize pointsPerOctave in
  {| m_vertices :=
       if decide (N.of_nat (length vertices) ≠ maxBufferSize)
       then resize maxBufferSize vertices else vertices;
     maxBufferSize := maxBufferSize;
     i := 0;
     verticiesCount := 0;
     value := MkValue complex_of_int_0 F32.zero;
     coherence := F32.zero;
     critical := [] |}.

(** [m_refreshBuffers] after the size test. *)
Definition refresh_after_sizing (b : XYSeriesRenderer.t) (pointsPerOctave : N) : bool :=
  if decide (N.of_nat (length (XYSeriesRenderer.m_vertices b))
             ≠ computeMaxBufferSize pointsPerOctave)
  then true else XYSeriesRenderer.m_refreshBuffers b.

(** The uniform, upload and draw calls that close the pass. *)
Definition gl_tail (r : NyquistSeriesRenderer.t) (refresh : bool) (fr : Frame)
    : list GLCall :=
  [SetUniformMatrix; SetUniformScreen; SetUniformWidth;
   SetUniformCoherenceThreshold (NyquistSeriesRenderer.m_coherenceThreshold r);
   SetUniformCoherenceAlpha (NyquistSeriesRenderer.m_coherence r)]
  ++ (if refresh then [GenBuffers; GenVertexArrays] else [])
  ++ [BindVertexArray; BindBuffer]
  ++ (if refresh then
        [BufferData (maxBufferSize fr);
         VertexAttribPointer 0 4 12 0;
         VertexAttribPointer 1 4 12 4;
         VertexAttribPointer 2 4 12 8]
      else [])
  ++ [BufferSubData (take (N.to_nat (12 * verticiesCount fr)) (m_vertices fr));
      EnableVertexAttribArray 0; EnableVertexAttribArray 1; EnableVertexAttribArray 2;
      DrawArrays 0 (verticiesCount fr);
      DisableVertexAttribArray 2; DisableVertexAttribArray 1; DisableVertexAttribArray 0].

(** [NyquistSeriesRenderer::renderSeries] *)
Definition renderSeries (r : NyquistSeriesRenderer.t) : option Pass :=
  let b := NyquistSeriesRenderer.base r in
  let src := XYSeriesRenderer.m_source b in
  if negb (Source.active src) || (Source.size src =? 0) then
    Some {| this := r; drawn := 0; calls := []; reports := [] |}
  else
    let ppo := NyquistSeriesRenderer.m_pointsPerOctave r in
    let refresh := refresh_after_sizing b ppo in
    fr ← run src (iterateForSpline src ppo) (enter (XYSeriesRenderer.m_vertices b) ppo);
    Some {| this :=
              NyquistSeriesRenderer.Make
                (XYSeriesRenderer.Make (XYSeriesRenderer.m_item b) src (m_vertices fr) false)
                ppo
                (NyquistSeriesRenderer.m_coherenceThreshold r)
                (NyquistSeriesRenderer.m_coherence r);
            drawn := verticiesCount fr;
            calls := gl_tail r refresh fr;
            reports := critical fr |}.

(** [NyquistSeriesRenderer::synchronize] *)
Definition synchronize (item : QQuickFramebufferObject) (r : NyquistSeriesRenderer.t)
    : NyquistSeriesRenderer.t :=
  let b := XYSeriesRenderer_synchronize item (NyquistSeriesRenderer.base r) in
  match dynamic_cast_NyquistPlot (parent (XYSeriesRenderer.m_item b)) with
  | Some plot =>
      NyquistSeriesRenderer.Make b
        (NyquistPlot.pointsPerOctave plot)
        (NyquistPlot.coherenceThreshold plot)
        (NyquistPlot.coherence plot)
  | None =>
      NyquistSeriesRenderer.Make b
        (NyquistSeriesRenderer.m_pointsPerOctave r)
        (NyquistSeriesRenderer.m_coherenceThreshold r)
        (NyquistSeriesRenderer.m_coherence r)
  end.

(** ** Vocabulary of the statements *)

(** The 12-float record of one segment. *)
Definition record (ac : array4 complex) (c : array4 float) : list float :=
  [real (at0 ac); real (at1 ac); real (at2 ac); real (at3 ac);
   imag (at0 ac); imag (at1 ac); imag (at2 ac); imag (at3 ac);
   at0 c; at1 c; at2 c; at3 c].

(** The two factors of [m_pointsPerOctave * 12 * 12]: twelve octave bands
    (the code's comment counts 11 octaves) and twelve floats per segment. *)
Definition maxOctaveBands : N := 12.
Definition pointsPerSegment : N := 12.

(** The frame [collected] leaves when the guard fires. *)
Definition dropped (fr : Frame) : Frame :=
  {| m_vertices := m_vertices fr; maxBufferSize := maxBufferSize fr; i := i fr;
     verticiesCount := verticiesCount fr; value := value fr;
     coherence := coherence fr;
     critical := critical fr ++ ["out of range"%string] |}.

(** What holds of the frame at every closure call of a pass: the vector
    has the size computed at the head of the pass, and the cursor is
    twelve times the counter and within the vector. *)
Record frame_ok (fr : Frame) : Prop := {
  ok_size : N.of_nat (length (m_vertices fr)) = maxBufferSize fr;
  ok_max : maxBufferSize fr < 2 ^ 32;
  ok_cursor : i fr = 12 * verticiesCount fr;
  ok_within : i fr <= maxBufferSize fr
}.

(** Left-to-right sums of a band's bins, starting from zero. *)
Definition phaseSum (src : Source.t) (bins : list N) : complex :=
  foldl (fun acc b => complex_add acc (Source.phase src b)) complex_of_int_0 bins.

Definition magnitudeSum (src : Source.t) (bins : list N) : float :=
  foldl (fun acc b => F32.add acc (Source.magnitudeRaw src b)) F32.zero bins.

Definition coherenceSum (src : Source.t) (bins : list N) : float :=
  foldl (fun acc b => F32.add acc (Source.coherence src b)) F32.zero bins.

(** Folding the bins of one band, in order. *)
Definition fold_band (src : Source.t) (bins : list N) (fr : Frame) : Frame :=
  foldl (fun f b => accumulate src b f) fr bins.

(** The control point in the spec's words:
    [unitPhase(phaseSum/count) * (magnitudeSum/count)] with
    [unitPhase(z) = z/|z|]. *)
Definition unitPhase (z : complex) : complex :=
  complex_div_float z (complex_abs z).

Definition controlPoint (phase_sum : complex) (magnitude_sum : float) (count : N)
    : complex :=
  complex_mul_float
    (unitPhase (complex_div_float phase_sum (F32.of_uint count)))
    (F32.div magnitude_sum (F32.of_uint count)).

(** Two frames that agree on every local of the pass. *)
Definition same_locals (a b : Frame) : Prop :=
  maxBufferSize a = maxBufferSize b /\ i a = i b /\
  verticiesCount a = verticiesCount b /\ value a = value b /\
  coherence a = coherence b /\ critical a = critical b.

(** The floats a pass has written: the first [12 * drawn] of the vector. *)
Definition written_region (p : Pass) : list float :=
  take (N.to_nat (12 * drawn p))
       (XYSeriesRenderer.m_vertices (NyquistSeriesRenderer.base (this p))).

(** The frame [collected] leaves after a write that fits. *)
Definition written (ac : array4 complex) (c : array4 float) (fr : Frame) : Frame :=
  {| m_vertices :=
       take (N.to_nat (i fr)) (m_vertices fr) ++ record ac c
       ++ drop (N.to_nat (i fr) + 12) (m_vertices fr);
     maxBufferSize := maxBufferSize fr;
     i := i fr + 12;
     verticiesCount := verticiesCount fr + 1;
     value := MkValue complex_of_int_0 F32.zero;
     coherence := F32.zero;
     critical := critical fr |}.

(** The two uniforms that carry the coherence settings. *)
Definition is_coherence_uniform (g : GLCall) : bool :=
  match g with
  | SetUniformCoherenceThreshold _ | SetUniformCoherenceAlpha _ => true
  | _ => false
  end.

(** The segments a schedule hands to [collected], in order, when it starts
    from the accumulator [v] and the coherence sum [coh] and every call
    takes the writing path (which resets both). *)
Fixpoint emitted (src : Source.t) (s : script) (v : NyquistSplineValue) (coh : float)
    : list (array4 complex * array4 float) :=
  match s with
  | Return => []
  | CallAccumulate idx k =>
      emitted src k
        (value_add_magnitude (value_add_phase v (Source.phase src idx))
           (Source.magnitudeRaw src idx))
        (F32.add coh (Source.coherence src idx))
  | CallBeforeSpline count k => emitted src (k (beforeSpline v coh count)) v coh
  | CallCollected f1 f2 ac c k =>
      (ac, c) :: emitted src k (MkValue complex_of_int_0 F32.zero) F32.zero
  | LoadValue k => emitted src (k v) v coh
  | LoadCoherence k => emitted src (k coh) v coh
  | StoreValue v' k => emitted src k v' coh
  | StoreCoherence c k => emitted src k v c
  end.

(** The segments of a whole pass. *)
Definition segments (src : Source.t) (pointsPerOctave : N)
    : list (array4 complex * array4 float) :=
  emitted src (iterateForSpline src pointsPerOctave)
    (MkValue complex_of_int_0 F32.zero) F32.zero.

(** Records laid end to end. *)
Fixpoint layout (segs : list (array4 complex * array4 float)) : list float :=
  match segs with
  | [] => []
  | (ac, c) :: rest => record ac c ++ layout rest
  end.

(** The calls that allocate buffer identities or storage, or declare the
    attribute layout. *)
Definition is_allocation (g : GLCall) : bool :=
  match g with
  | GenBuffers | GenVertexArrays | BufferData _ | VertexAttribPointer _ _ _ _ => true
  | _ => false
  end.

(** ** Stores *)

Lemma store_Some k v l l' :
  store k v l = Some l' ->
  k < N.of_nat (length l) /\ l' = <[N.to_nat k := v]> l.
Proof.
  unfold store. case_decide; [|discriminate].
  intros [= <-]. auto.
Qed.

Lemma store_seq_Some vs : forall k l l',
  store_seq k vs l = Some l' ->
  (vs <> [] -> k + N.of_nat (length vs) <= N.of_nat (length l)) /\
  length l' = length l /\
  (k + N.of_nat (length vs) <= N.of_nat (length l) ->
   l' = take (N.to_nat k) l ++ vs ++ drop (N.to_nat k + length vs) l).
Proof.
  induction vs as [|v vs IH]; intros k l l' H; simpl in H.
  - injection H as <-. split; [done|]. split; [done|]. intros _.
    simpl. rewrite Nat.add_0_r. by rewrite take_drop.
  - destruct (store k v l) as [l1|] eqn:E; simpl in H; [|discriminate].
    apply store_Some in E as [Hk ->].
    apply IH in H as (Hb & Hlen & Heq).
    rewrite length_insert in Hb, Hlen, Heq.
    split.
    { intros _. destruct vs as [|w ws]; [simpl; lia|].
      specialize (Hb ltac:(done)). simpl in *. lia. }
    split; [done|].
    intros Hfit. simpl in Hfit.
    rewrite Heq by lia.
    replace (N.to_nat (k + 1)) with (S (N.to_nat k)) by lia.
    rewrite (take_S_r _ _ v) by (apply list_lookup_insert_eq; lia).
    rewrite take_insert_ge by lia.
    rewrite drop_insert_lt by lia.
    rewrite <- app_assoc. simpl.
    by rewrite Nat.add_succ_r.
Qed.

Lemma store_seq_fits vs : forall k l,
  k + N.of_nat (length vs) <= N.of_nat (length l) ->
  store_seq k vs l = Some (take (N.to_nat k) l ++ vs ++ drop (N.to_nat k + length vs) l).
Proof.
  induction vs as [|v vs IH]; intros k l Hfit; simpl in *.
  - rewrite Nat.add_0_r. by rewrite take_drop.
  - unfold store. rewrite decide_True by lia. simpl.
    rewrite IH by (rewrite length_insert; lia).
    replace (N.to_nat (k + 1)) with (S (N.to_nat k)) by lia.
    rewrite (take_S_r _ _ v) by (apply list_lookup_insert_eq; lia).
    rewrite take_insert_ge by lia.
    rewrite drop_insert_lt by lia.
    rewrite <- app_assoc. simpl.
    by rewrite Nat.add_succ_r.
Qed.

(** ** The two paths of [collected] *)

Lemma wrap32_small n : n < 2 ^ 32 -> wrap32 n = n.
Proof. intros. unfold wrap32. by apply N.mod_small. Qed.

Lemma collected_fires f1 f2 ac c fr :
  maxBufferSize fr < i fr -> collected f1 f2 ac c fr = Some (dropped fr).
Proof. intros H. unfold collected. by rewrite decide_True. Qed.

Lemma collected_fits f1 f2 ac c fr :
  N.of_nat (length (m_vertices fr)) < 2 ^ 32 ->
  verticiesCount fr + 1 < 2 ^ 32 ->
  i fr <= maxBufferSize fr ->
  i fr + 12 <= N.of_nat (length (m_vertices fr)) ->
  collected f1 f2 ac c fr = Some (written ac c fr).
Proof.
  intros Hlen Hcount Hguard Hfit. unfold collected.
  rewrite decide_False by lia.
  pose proof (store_seq_fits (record ac c) (i fr) (m_vertices fr)) as Hseq.
  simpl in Hseq. specialize (Hseq ltac:(lia)).
  unfold memcpy4. simpl.
  rewrite N.add_0_r.
  rewrite !wrap32_small by lia.
  replace (i fr + 2) with (i fr + 1 + 1) by lia.
  replace (i fr + 3) with (i fr + 1 + 1 + 1) by lia.
  replace (i fr + 4) with (i fr + 1 + 1 + 1 + 1) by lia.
  replace (i fr + 5) with (i fr + 1 + 1 + 1 + 1 + 1) by lia.
  replace (i fr + 6) with (i fr + 1 + 1 + 1 + 1 + 1 + 1) by lia.
  replace (i fr + 7) with (i fr + 1 + 1 + 1 + 1 + 1 + 1 + 1) by lia.
  replace (i fr + 8) with (i fr + 1 + 1 + 1 + 1 + 1 + 1 + 1 + 1) by lia.
  destruct (store (i fr) _ _) as [l0|]; simpl in *; [|discriminate].
  destruct (store (i fr + 1) _ _) as [l1|]; simpl in *; [|discriminate].
  destruct (store (i fr + 1 + 1) _ _) as [l2|]; simpl in *; [|discriminate].
  destruct (store (i fr + 1 + 1 + 1) _ _) as [l3|]; simpl in *; [|discriminate].
  destruct (store (i fr + 1 + 1 + 1 + 1) _ _) as [l4|]; simpl in *; [|discriminate].
  destruct (store (i fr + 1 + 1 + 1 + 1 + 1) _ _) as [l5|]; simpl in *; [|discriminate].
  destruct (store (i fr + 1 + 1 + 1 + 1 + 1 + 1) _ _) as [l6|]; simpl in *;
    [|discriminate].
  destruct (store (i fr + 1 + 1 + 1 + 1 + 1 + 1 + 1) _ _) as [l7|]; simpl in *;
    [|discriminate].
  destruct (store (i fr + 1 + 1 + 1 + 1 + 1 + 1 + 1 + 1) _ _) as [l8|]; simpl in *;
    [|discriminate].
  destruct (store (i fr + 1 + 1 + 1 + 1 + 1 + 1 + 1 + 1 + 1) _ _) as [l9|]; simpl in *;
    [|discriminate].
  destruct (store (i fr + 1 + 1 + 1 + 1 + 1 + 1 + 1 + 1 + 1 + 1) _ _) as [l10|];
    simpl in *; [|discriminate].
  destruct (store (i fr + 1 + 1 + 1 + 1 + 1 + 1 + 1 + 1 + 1 + 1 + 1) _ _) as [l11|];
    simpl in *; [|discriminate].
  injection Hseq as ->.
  unfold written, record. simpl. done.
Qed.

Lemma collected_stores_fit f1 f2 ac c fr fr' :
  ¬ maxBufferSize fr < i fr ->
  N.of_nat (length (m_vertices fr)) < 2 ^ 32 ->
  collected f1 f2 ac c fr = Some fr' ->
  i fr + 12 <= N.of_nat (length (m_vertices fr)).
Proof.
  intros Hguard Hlen. unfold collected. rewrite decide_False by done.
  repeat match goal with
  | |- context [store ?k ?v ?l] =>
      let E := fresh "E" in
      destruct (store k v l) eqn:E; simpl; [|discriminate];
      apply store_Some in E as [_ ->]
  end.
  destruct (memcpy4 _ _ _) eqn:E; simpl; [|discriminate].
  intros _. apply store_seq_Some in E as (E & _ & _).
  specialize (E ltac:(done)). simpl in E.
  rewrite !length_insert in E. lia.
Qed.

Lemma collected_Some f1 f2 ac c fr fr' :
  frame_ok fr ->
  collected f1 f2 ac c fr = Some fr' ->
  i fr + 12 <= maxBufferSize fr /\ fr' = written ac c fr.
Proof.
  intros [Hsize Hmax Hcur Hin] H.
  assert (i fr + 12 <= N.of_nat (length (m_vertices fr))) as Hfit.
  { eapply collected_stores_fit; [| |exact H]; lia. }
  split; [lia|].
  rewrite collected_fits in H by lia. by injection H.
Qed.

Lemma written_length ac c fr :
  i fr + 12 <= N.of_nat (length (m_vertices fr)) ->
  length (m_vertices (written ac c fr)) = length (m_vertices fr).
Proof.
  intros Hfit. unfold written. cbn [m_vertices].
  rewrite !length_app, length_take, length_drop. simpl. lia.
Qed.

Lemma written_ok ac c fr :
  frame_ok fr -> i fr + 12 <= maxBufferSize fr -> frame_ok (written ac c fr).
Proof.
  intros [Hsize Hmax Hcur Hin] Hfit.
  split; try (simpl; lia).
  rewrite written_length by lia. done.
Qed.

(** ** Frames of a pass *)

Lemma enter_size vertices ppo :
  N.of_nat (length (m_vertices (enter vertices ppo))) = computeMaxBufferSize ppo.
Proof.
  unfold enter. simpl. case_decide as H.
  - unfold resize. rewrite length_app, length_take, length_replicate. lia.
  - by destruct (decide (N.of_nat (length vertices) = computeMaxBufferSize ppo)).
Qed.

Lemma computeMaxBufferSize_lt ppo : computeMaxBufferSize ppo < 2 ^ 32.
Proof. unfold computeMaxBufferSize, wrap32. by apply N.mod_lt. Qed.

Lemma enter_ok vertices ppo : frame_ok (enter vertices ppo).
Proof.
  split.
  - apply enter_size.
  - apply computeMaxBufferSize_lt.
  - done.
  - simpl. lia.
Qed.

Lemma run_ok src s : forall fr g,
  frame_ok fr -> run src s fr = Some g ->
  frame_ok g /\ critical g = critical fr /\
  length (m_vertices g) = length (m_vertices fr) /\
  maxBufferSize g = maxBufferSize fr.
Proof.
  induction s as [|idx k IH|count k IH|f1 f2 ac c k IH|k IH|k IH|v k IH|c k IH];
    intros fr g Hok Hrun; simpl in Hrun.
  - injection Hrun as <-. done.
  - apply IH in Hrun; [done|]. by destruct Hok.
  - by apply IH in Hrun.
  - destruct (collected f1 f2 ac c fr) as [fr'|] eqn:E; simpl in Hrun; [|discriminate].
    apply (collected_Some _ _ _ _ _ _ Hok) in E as [Hfit ->].
    apply IH in Hrun; [|by apply written_ok].
    destruct Hrun as (? & -> & -> & ->). split; [done|].
    split; [done|]. split; [|done].
    apply written_length. destruct Hok. lia.
  - by apply IH in Hrun.
  - by apply IH in Hrun.
  - apply IH in Hrun; [done|]. by destruct Hok.
  - apply IH in Hrun; [done|]. by destruct Hok.
Qed.

(** Two runs of one schedule from frames with the same locals and the
    same floats below the cursor stay in step, whatever lies above it. *)
Lemma run_in_step src s : forall fr1 fr2 g1,
  frame_ok fr1 -> frame_ok fr2 -> same_locals fr1 fr2 ->
  take (N.to_nat (i fr1)) (m_vertices fr1) = take (N.to_nat (i fr1)) (m_vertices fr2) ->
  run src s fr1 = Some g1 ->
  exists g2, run src s fr2 = Some g2 /\ same_locals g1 g2 /\
    take (N.to_nat (i g1)) (m_vertices g1) = take (N.to_nat (i g1)) (m_vertices g2).
Proof.
  induction s as [|idx k IH|count k IH|f1 f2 ac c k IH|k IH|k IH|v k IH|c k IH];
    intros fr1 fr2 g1 Hok1 Hok2 Hloc Hpre Hrun; simpl in Hrun |- *.
  - injection Hrun as <-. by exists fr2.
  - apply (IH _ (accumulate src idx fr2)) in Hrun; try done.
    + by destruct Hok1.
    + by destruct Hok2.
    + destruct Hloc as (? & ? & ? & Hv & Hc & ?).
      unfold same_locals. simpl. rewrite Hv, Hc. done.
  - destruct Hloc as (? & ? & ? & Hv & Hc & ?).
    rewrite <- Hv, <- Hc. by apply (IH _ fr1 fr2).
  - destruct (collected f1 f2 ac c fr1) as [fr1'|] eqn:E; simpl in Hrun; [|discriminate].
    apply (collected_Some _ _ _ _ _ _ Hok1) in E as [Hfit ->].
    destruct Hloc as (Hm & Hi & Hn & Hv & Hc & Hr).
    assert (i fr2 + 12 <= maxBufferSize fr2) as Hfit2 by lia.
    rewrite (collected_fits f1 f2 ac c fr2); [simpl| | | |];
      try (destruct Hok2; lia).
    apply (IH (written ac c fr1) (written ac c fr2)); try done.
    + by apply written_ok.
    + by apply written_ok.
    + unfold same_locals. simpl. rewrite Hm, Hi, Hn, Hr. done.
    + simpl. rewrite <- Hi.
      destruct Hok1 as [Hs1 _ _ _], Hok2 as [Hs2 _ _ _].
      rewrite !(take_app_ge (take _ _)) by (rewrite length_take; lia).
      rewrite Hpre. f_equal.
      rewrite !length_take.
      match goal with
      | |- take ?n _ = take _ _ => replace n with 12%nat by lia
      end.
      done.
  - destruct Hloc as (? & ? & ? & Hv & Hc & ?).
    rewrite <- Hv. by apply (IH _ fr1 fr2).
  - destruct Hloc as (? & ? & ? & Hv & Hc & ?).
    rewrite <- Hc. by apply (IH _ fr1 fr2).
  - apply (IH (set_value v fr1) (set_value v fr2)) in Hrun; try done.
    + by destruct Hok1.
    + by destruct Hok2.
    + destruct Hloc as (? & ? & ? & Hv & Hc & ?). unfold same_locals. done.
  - apply (IH (set_coherence c fr1) (set_coherence c fr2)) in Hrun; try done.
    + by destruct Hok1.
    + by destruct Hok2.
    + destruct Hloc as (? & ? & ? & Hv & Hc & ?). unfold same_locals. done.
Qed.

(** ** Accumulation *)

Lemma fold_band_sums src bins : forall fr,
  value (fold_band src bins fr) =
    MkValue
      (foldl (fun acc b => complex_add acc (Source.phase src b))
             (m_phase (value fr)) bins)
      (foldl (fun acc b => F32.add acc (Source.magnitudeRaw src b))
             (m_magnitude (value fr)) bins) /\
  coherence (fold_band src bins fr) =
    foldl (fun acc b => F32.add acc (Source.coherence src b)) (coherence fr) bins.
Proof.
  unfold fold_band.
  induction bins as [|b bins IH]; intros fr; simpl.
  - by destruct (value fr).
  - by destruct (IH (accumulate src b fr)) as [-> ->].
Qed.

Lemma fold_band_from_zero src bins fr :
  value fr = MkValue complex_of_int_0 F32.zero ->
  coherence fr = F32.zero ->
  value (fold_band src bins fr) = MkValue (phaseSum src bins) (magnitudeSum src bins) /\
  coherence (fold_band src bins fr) = coherenceSum src bins.
Proof.
  intros Hv Hc. destruct (fold_band_sums src bins fr) as [-> ->].
  by rewrite Hv, Hc.
Qed.

Lemma collected_passed_resets f1 f2 ac c fr fr' :
  ¬ maxBufferSize fr < i fr ->
  collected f1 f2 ac c fr = Some fr' ->
  value fr' = MkValue complex_of_int_0 F32.zero /\ coherence fr' = F32.zero.
Proof.
  intros Hguard. unfold collected. rewrite decide_False by done.
  repeat match goal with
  | |- context [store ?k ?v ?l] => destruct (store k v l); simpl; [|discriminate]
  end.
  destruct (memcpy4 _ _ _); simpl; [|discriminate].
  by intros [= <-].
Qed.

(** ** Floats at a zero divisor *)

Lemma eqb_zero_inv x : F32.eqb x F32.zero = true -> exists s, x = S754_zero s.
Proof.
  destruct x as [s| | |s m e]; try discriminate.
  - by exists s.
  - by destruct s.
  - by destruct s.
Qed.

Lemma div_by_zero_mul x s q :
  let y := F32.mul (F32.div x (S754_zero s)) q in
  F32.is_finite y = false /\ (F32.is_zero x = true -> F32.is_nan y = true).
Proof.
  destruct x as [sx|sx| |sx mx ex]; destruct q as [sq|sq| |sq mq eq]; by simpl.
Qed.

(** * Properties of the renderer *)

(** C2 (as amended).  The capacity computed at the head of a render pass
    is [pointsPerOctave * maxOctaveBands * pointsPerSegment] reduced modulo
    2^32 (the product is formed in [unsigned int]), hence exactly that
    product whenever it is below 2^32.  It depends on [pointsPerOctave]
    alone: after a pass over an active, non-empty source the vector has
    that size whatever the source supplied.  The vector is resized, and a
    buffer refresh requested, only when its size differs from this value. *)
Theorem capacity_formula_mod_2_32 (r : NyquistSeriesRenderer.t) (p : Pass) :
  let b := NyquistSeriesRenderer.base r in
  let ppo := NyquistSeriesRenderer.m_pointsPerOctave r in
  let capacity := computeMaxBufferSize ppo in
  capacity = (ppo * maxOctaveBands * pointsPerSegment) mod 2 ^ 32 /\
  (ppo * maxOctaveBands * pointsPerSegment < 2 ^ 32 ->
   capacity = ppo * maxOctaveBands * pointsPerSegment) /\
  maxBufferSize (enter (XYSeriesRenderer.m_vertices b) ppo) = capacity /\
  (N.of_nat (length (XYSeriesRenderer.m_vertices b)) = capacity ->
   m_vertices (enter (XYSeriesRenderer.m_vertices b) ppo) = XYSeriesRenderer.m_vertices b /\
   refresh_after_sizing b ppo = XYSeriesRenderer.m_refreshBuffers b) /\
  (N.of_nat (length (XYSeriesRenderer.m_vertices b)) <> capacity ->
   m_vertices (enter (XYSeriesRenderer.m_vertices b) ppo)
     = resize capacity (XYSeriesRenderer.m_vertices b) /\
   refresh_after_sizing b ppo = true) /\
  (Source.active (XYSeriesRenderer.m_source b) = true ->
   Source.size (XYSeriesRenderer.m_source b) <> 0 ->
   renderSeries r = Some p ->
   N.of_nat (length (XYSeriesRenderer.m_vertices (NyquistSeriesRenderer.base (this p))))
     = capacity).
Proof.
  intros b ppo capacity.
  assert (capacity = (ppo * maxOctaveBands * pointsPerSegment) mod 2 ^ 32) as Hcap.
  { unfold capacity, computeMaxBufferSize, wrap32, maxOctaveBands, pointsPerSegment.
    by rewrite N.Div0.mul_mod_idemp_l. }
  split; [done|]. split.
  { intros Hsmall. rewrite Hcap. by apply N.mod_small. }
  split; [done|]. split.
  { intros Heq. unfold enter, refresh_after_sizing. simpl.
    fold ppo capacity. by rewrite !decide_False by (by intros ?). }
  split.
  { intros Hne. unfold enter, refresh_after_sizing. simpl.
    fold ppo capacity. by rewrite !decide_True. }
  intros Hact Hsize. unfold renderSeries. fold b ppo.
  rewrite Hact. simpl.
  destruct (N.eqb_spec (Source.size (XYSeriesRenderer.m_source b)) 0) as [|_]; [done|].
  destruct (run _ _ _) as [g|] eqn:Hrun; simpl; [|discriminate].
  intros [= <-]. simpl.
  apply run_ok in Hrun as (_ & _ & -> & _); [|apply enter_ok].
  apply enter_size.
Qed.

(** C3.  A band of at least one bin, folded from a clean accumulator,
    holds the plain sums of its bins' phase, magnitude and coherence (each
    fold step only adds), and the control point produced at band close is
    [unitPhase(phaseSum/count) * (magnitudeSum/count)]: the division by
    [count] happens in [beforeSpline] alone. *)
Theorem band_close_control_point (src : Source.t) (bins : list N) (fr : Frame) :
  bins <> [] ->
  value fr = MkValue complex_of_int_0 F32.zero ->
  coherence fr = F32.zero ->
  let g := fold_band src bins fr in
  let count := N.of_nat (length bins) in
  (forall b f,
     value (accumulate src b f) =
       MkValue (complex_add (m_phase (value f)) (Source.phase src b))
               (F32.add (m_magnitude (value f)) (Source.magnitudeRaw src b)) /\
     coherence (accumulate src b f) = F32.add (coherence f) (Source.coherence src b)) /\
  value g = MkValue (phaseSum src bins) (magnitudeSum src bins) /\
  coherence g = coherenceSum src bins /\
  beforeSpline (value g) (coherence g) count
    = controlPoint (phaseSum src bins) (magnitudeSum src bins) count.
Proof.
  intros _ Hv Hc g count.
  destruct (fold_band_from_zero src bins fr Hv Hc) as [Hg Hgc].
  split; [done|]. split; [exact Hg|]. split; [exact Hgc|].
  fold g in Hg. rewrite Hg. reflexivity.
Qed.

(** C4.  When the modulus of the mean phase of a closed band compares
    equal to zero, [beforeSpline] still divides by it: neither component of
    the control point it returns is a finite number, a component whose mean
    is itself zero is NaN, and the iterator goes on with exactly that
    value; nothing replaces it. *)
Theorem degenerate_direction_propagates
    (src : Source.t) (fr : Frame) (count : N) (k : complex -> script) :
  let mean := complex_div_float (m_phase (value fr)) (F32.of_uint count) in
  F32.eqb (complex_abs mean) F32.zero = true ->
  let p := beforeSpline (value fr) (coherence fr) count in
  F32.is_finite (real p) = false /\
  F32.is_finite (imag p) = false /\
  (F32.is_zero (real mean) = true -> F32.is_nan (real p) = true) /\
  (F32.is_zero (imag mean) = true -> F32.is_nan (imag p) = true) /\
  run src (CallBeforeSpline count k) fr = run src (k p) fr.
Proof.
  intros mean Hzero p.
  apply eqb_zero_inv in Hzero as [s Hs].
  unfold p, beforeSpline. fold mean. rewrite Hs. simpl.
  destruct (div_by_zero_mul (real mean) s
              (F32.div (m_magnitude (value fr)) (F32.of_uint count))) as [Hr Hrz].
  destruct (div_by_zero_mul (imag mean) s
              (F32.div (m_magnitude (value fr)) (F32.of_uint count))) as [Hi Hiz].
  simpl in Hr, Hrz, Hi, Hiz.
  repeat split; try done.
  unfold beforeSpline. fold mean. by rewrite Hs.
Qed.

(** C5.  When the parent of the item is absent, or is an object of
    another kind than the plot, [synchronize] returns with
    [m_pointsPerOctave], [m_coherence] and [m_coherenceThreshold] as they
    were. *)
Theorem synchronize_keeps_configuration
    (item : QQuickFramebufferObject) (r : NyquistSeriesRenderer.t) :
  let b := XYSeriesRenderer_synchronize item (NyquistSeriesRenderer.base r) in
  parent (XYSeriesRenderer.m_item b) = None \/
  parent (XYSeriesRenderer.m_item b) = Some OtherObject ->
  exists r', synchronize item r = r' /\
    NyquistSeriesRenderer.m_pointsPerOctave r' = NyquistSeriesRenderer.m_pointsPerOctave r /\
    NyquistSeriesRenderer.m_coherence r' = NyquistSeriesRenderer.m_coherence r /\
    NyquistSeriesRenderer.m_coherenceThreshold r'
      = NyquistSeriesRenderer.m_coherenceThreshold r.
Proof.
  intros b Hparent. eexists. split; [reflexivity|].
  unfold synchronize. fold b.
  by destruct Hparent as [-> | ->].
Qed.

(** C6.  A call of [collected] whose guard passes and whose stores all
    land in the vector leaves, at the cursor it was called with, the four
    real parts, then the four imaginary parts of the control points in
    order, then the four scalar controls; the cursor has advanced by 12 and
    the counter by 1. *)
Theorem collected_record_layout
    (f1 f2 : float) (ac : array4 complex) (c : array4 float) (fr fr' : Frame) :
  frame_ok fr ->
  ¬ maxBufferSize fr < i fr ->
  collected f1 f2 ac c fr = Some fr' ->
  take 12 (drop (N.to_nat (i fr)) (m_vertices fr')) =
    [real (at0 ac); real (at1 ac); real (at2 ac); real (at3 ac);
     imag (at0 ac); imag (at1 ac); imag (at2 ac); imag (at3 ac);
     at0 c; at1 c; at2 c; at3 c] /\
  i fr' = i fr + 12 /\
  verticiesCount fr' = verticiesCount fr + 1.
Proof.
  intros Hok _ H.
  destruct (collected_Some _ _ _ _ _ _ Hok H) as [Hfit ->].
  split; [|done].
  unfold written. cbn [m_vertices].
  rewrite drop_app_length'; [done|].
  destruct Hok as [Hsize _ _ _]. rewrite length_take. lia.
Qed.

(** C7.  After a call of [collected] that wrote its segment, the phase
    sum, the magnitude sum and the coherence sum are zero, so the bins
    folded next add up to the sums of those bins alone. *)
Theorem collected_resets_accumulator
    (src : Source.t) (f1 f2 : float) (ac : array4 complex) (c : array4 float)
    (fr fr' : Frame) (bins : list N) :
  ¬ maxBufferSize fr < i fr ->
  collected f1 f2 ac c fr = Some fr' ->
  m_phase (value fr') = complex_of_int_0 /\
  m_magnitude (value fr') = F32.zero /\
  coherence fr' = F32.zero /\
  value (fold_band src bins fr') = MkValue (phaseSum src bins) (magnitudeSum src bins) /\
  coherence (fold_band src bins fr') = coherenceSum src bins.
Proof.
  intros Hguard H.
  destruct (collected_passed_resets _ _ _ _ _ _ Hguard H) as [Hv Hc].
  rewrite Hv. repeat split; try done.
  all: by apply fold_band_from_zero.
Qed.

(** C9.  When the guard fires, [collected] reports and returns with the
    phase, magnitude and coherence sums as they were (like the cursor, the
    counter and the vector); the bins folded next are added on top of
    those leftover sums. *)
Theorem dropped_write_keeps_accumulator
    (src : Source.t) (f1 f2 : float) (ac : array4 complex) (c : array4 float)
    (fr : Frame) (bins : list N) :
  maxBufferSize fr < i fr ->
  exists fr', collected f1 f2 ac c fr = Some fr' /\
    critical fr' = critical fr ++ ["out of range"%string] /\
    value fr' = value fr /\ coherence fr' = coherence fr /\
    i fr' = i fr /\ verticiesCount fr' = verticiesCount fr /\
    m_vertices fr' = m_vertices fr /\
    value (fold_band src bins fr') =
      MkValue
        (foldl (fun acc b => complex_add acc (Source.phase src b))
               (m_phase (value fr)) bins)
        (foldl (fun acc b => F32.add acc (Source.magnitudeRaw src b))
               (m_magnitude (value fr)) bins) /\
    coherence (fold_band src bins fr') =
      foldl (fun acc b => F32.add acc (Source.coherence src b)) (coherence fr) bins.
Proof.
  intros Hfire. exists (dropped fr).
  split; [by apply collected_fires|].
  destruct (fold_band_sums src bins (dropped fr)) as [Hv Hc].
  repeat split; done.
Qed.

(** C8.  A render pass that completes, run again on the renderer it
    left (same source, same configuration), completes with the same number
    of emitted vertices and the same floats in the written region. *)
Theorem render_twice_same_output (r : NyquistSeriesRenderer.t) (p1 : Pass) :
  renderSeries r = Some p1 ->
  exists p2, renderSeries (this p1) = Some p2 /\
    drawn p2 = drawn p1 /\
    written_region p2 = written_region p1.
Proof.
  unfold renderSeries.
  set (b := NyquistSeriesRenderer.base r).
  set (src := XYSeriesRenderer.m_source b).
  set (ppo := NyquistSeriesRenderer.m_pointsPerOctave r).
  destruct (negb (Source.active src) || (Source.size src =? 0)) eqn:Hskip.
  - intros [= <-]. simpl. fold b src. rewrite Hskip. by eexists.
  - destruct (run src _ _) as [g1|] eqn:Hrun; simpl; [|discriminate].
    intros [= <-]. simpl. rewrite Hskip.
    destruct (run_ok _ _ _ _ (enter_ok _ _) Hrun) as (Hok1 & _ & _ & _).
    destruct (run_in_step src (iterateForSpline src ppo)
                (enter (XYSeriesRenderer.m_vertices b) ppo)
                (enter (m_vertices g1) ppo) g1) as (g2 & Hrun2 & Hloc & Hpre);
      try done; try apply enter_ok.
    rewrite Hrun2. simpl. eexists. split; [reflexivity|].
    destruct Hloc as (_ & _ & Hn & _). unfold written_region. simpl.
    split; [done|].
    destruct Hok1 as [_ _ Hcur _]. by rewrite <- Hn, <- Hcur.
Qed.

(** C10.  Two renderers that differ only in the coherence gate flag and
    the coherence threshold render alike: both passes complete or neither
    does, and when they do the vector, the number of emitted vertices, the
    reports and every OpenGL call other than the two coherence uniforms
    agree; the two settings appear in the pass as those uniforms. *)
Theorem coherence_settings_only_uniforms
    (r : NyquistSeriesRenderer.t) (threshold : float) (gate : bool) :
  let r' := NyquistSeriesRenderer.Make (NyquistSeriesRenderer.base r)
              (NyquistSeriesRenderer.m_pointsPerOctave r) threshold gate in
  match renderSeries r, renderSeries r' with
  | Some p, Some p' =>
      XYSeriesRenderer.m_vertices (NyquistSeriesRenderer.base (this p'))
        = XYSeriesRenderer.m_vertices (NyquistSeriesRenderer.base (this p)) /\
      drawn p' = drawn p /\
      reports p' = reports p /\
      List.filter (fun g => negb (is_coherence_uniform g)) (calls p')
        = List.filter (fun g => negb (is_coherence_uniform g)) (calls p) /\
      List.filter is_coherence_uniform (calls p')
        = (if negb (Source.active (XYSeriesRenderer.m_source (NyquistSeriesRenderer.base r)))
              || (Source.size (XYSeriesRenderer.m_source (NyquistSeriesRenderer.base r)) =? 0)
           then []
           else [SetUniformCoherenceThreshold threshold; SetUniformCoherenceAlpha gate])
  | None, None => True
  | _, _ => False
  end.
Proof.
  intros r'. unfold renderSeries. simpl.
  destruct (negb _ || _); [done|].
  destruct (run _ _ _) as [g|]; simpl; [|done].
  repeat split; try done.
  unfold gl_tail. simpl. by destruct (refresh_after_sizing _ _).
Qed.

(** The guard lets through every cursor up to and including the capacity:
    the twelve stores of such a call do not all land in the vector. *)
Lemma collected_unguarded_overflow f1 f2 ac c fr :
  frame_ok fr -> maxBufferSize fr < i fr + 12 ->
  collected f1 f2 ac c fr = None.
Proof.
  intros Hok Hover.
  destruct (collected f1 f2 ac c fr) as [fr'|] eqn:E; [|done].
  apply (collected_Some _ _ _ _ _ _ Hok) in E as [Hfit _]. lia.
Qed.

(** * Further properties of the pass *)

Lemma layout_length segs : length (layout segs) = (12 * length segs)%nat.
Proof.
  induction segs as [|[ac c] rest IH]; [done|].
  cbn [layout]. rewrite length_app, IH. simpl. lia.
Qed.

Lemma written_take ac c fr :
  i fr + 12 <= N.of_nat (length (m_vertices fr)) ->
  take (N.to_nat (i fr + 12)) (m_vertices (written ac c fr))
    = take (N.to_nat (i fr)) (m_vertices fr) ++ record ac c.
Proof.
  intros Hfit. unfold written. cbn [m_vertices].
  rewrite app_assoc. apply take_app_length'.
  rewrite length_app, length_take. simpl. lia.
Qed.

Lemma written_drop ac c fr n :
  i fr + 12 <= N.of_nat (length (m_vertices fr)) ->
  i fr + 12 <= n ->
  drop (N.to_nat n) (m_vertices (written ac c fr)) = drop (N.to_nat n) (m_vertices fr).
Proof.
  intros Hfit Hn. unfold written. cbn [m_vertices].
  rewrite app_assoc, drop_app_ge by (rewrite length_app, length_take; simpl; lia).
  rewrite length_app, length_take, drop_drop. simpl. f_equal. lia.
Qed.

(** A run that completes has laid the records of its segments end to end
    from the cursor it started at, and touched nothing else. *)
Lemma run_layout src s : forall fr g,
  frame_ok fr -> run src s fr = Some g ->
  let segs := emitted src s (value fr) (coherence fr) in
  i g = i fr + 12 * N.of_nat (length segs) /\
  verticiesCount g = verticiesCount fr + N.of_nat (length segs) /\
  m_vertices g =
    take (N.to_nat (i fr)) (m_vertices fr) ++ layout segs
    ++ drop (N.to_nat (i g)) (m_vertices fr).
Proof.
  induction s as [|idx k IH|count k IH|f1 f2 ac c k IH|k IH|k IH|v k IH|c k IH];
    intros fr g Hok Hrun; simpl in Hrun; cbn [emitted].
  - injection Hrun as <-. simpl.
    split; [lia|]. split; [lia|]. by rewrite take_drop.
  - apply IH in Hrun; [exact Hrun|]. by destruct Hok.
  - by apply IH in Hrun.
  - destruct (collected f1 f2 ac c fr) as [fr'|] eqn:E; simpl in Hrun; [|discriminate].
    apply (collected_Some _ _ _ _ _ _ Hok) in E as [Hfit ->].
    pose proof (written_ok ac c fr Hok Hfit) as Hok'.
    destruct (IH _ _ Hok' Hrun) as (Hi & Hn & Hv).
    cbn [written i verticiesCount value coherence] in Hi, Hn, Hv.
    destruct Hok as [Hsize _ _ _].
    cbn zeta. cbn [length layout].
    split; [lia|]. split; [lia|].
    rewrite Hv, written_take, written_drop by lia.
    by rewrite <- !app_assoc.
  - by apply IH in Hrun.
  - by apply IH in Hrun.
  - apply IH in Hrun; [exact Hrun|]. by destruct Hok.
  - apply IH in Hrun; [exact Hrun|]. by destruct Hok.
Qed.

(** A run completes when the records of its segments fit above the
    cursor. *)
Lemma run_completes src s : forall fr,
  frame_ok fr ->
  i fr + 12 * N.of_nat (length (emitted src s (value fr) (coherence fr)))
    <= maxBufferSize fr ->
  is_Some (run src s fr).
Proof.
  induction s as [|idx k IH|count k IH|f1 f2 ac c k IH|k IH|k IH|v k IH|c k IH];
    intros fr Hok Hfit; simpl; cbn [emitted] in Hfit.
  - done.
  - apply IH; [by destruct Hok|exact Hfit].
  - by apply IH.
  - cbn [length] in Hfit.
    assert (i fr + 12 <= maxBufferSize fr) as Hfit1 by lia.
    rewrite collected_fits; try (destruct Hok; lia).
    simpl. apply IH; [by apply written_ok|].
    cbn [written i maxBufferSize value coherence]. lia.
  - by apply IH.
  - by apply IH.
  - apply IH; [by destruct Hok|exact Hfit].
  - apply IH; [by destruct Hok|exact Hfit].
Qed.

Lemma run_from_enter src s vertices ppo g :
  run src s (enter vertices ppo) = Some g ->
  let segs := emitted src s (MkValue complex_of_int_0 F32.zero) F32.zero in
  i g = 12 * N.of_nat (length segs) /\
  verticiesCount g = N.of_nat (length segs) /\
  m_vertices g =
    layout segs ++ drop (12 * length segs) (m_vertices (enter vertices ppo)).
Proof.
  intros Hrun segs.
  destruct (run_layout _ _ _ _ (enter_ok _ _) Hrun) as (Hi & Hn & Hv).
  change (value (enter vertices ppo)) with (MkValue complex_of_int_0 F32.zero)
    in Hi, Hn, Hv.
  change (coherence (enter vertices ppo)) with F32.zero in Hi, Hn, Hv.
  change (i (enter vertices ppo)) with 0 in Hi, Hv.
  change (verticiesCount (enter vertices ppo)) with 0 in Hn.
  fold segs in Hi, Hn, Hv.
  change (take (N.to_nat 0) (m_vertices (enter vertices ppo))) with (@nil float) in Hv.
  replace (N.to_nat (i g)) with (12 * length segs)%nat in Hv by lia.
  split; [lia|]. split; [lia|]. exact Hv.
Qed.

Lemma renderSeries_active r :
  let b := NyquistSeriesRenderer.base r in
  let src := XYSeriesRenderer.m_source b in
  let ppo := NyquistSeriesRenderer.m_pointsPerOctave r in
  Source.active src = true -> Source.size src <> 0 ->
  renderSeries r =
    (fr ← run src (iterateForSpline src ppo) (enter (XYSeriesRenderer.m_vertices b) ppo);
     Some {| this :=
               NyquistSeriesRenderer.Make
                 (XYSeriesRenderer.Make (XYSeriesRenderer.m_item b) src (m_vertices fr) false)
                 ppo
                 (NyquistSeriesRenderer.m_coherenceThreshold r)
                 (NyquistSeriesRenderer.m_coherence r);
             drawn := verticiesCount fr;
             calls := gl_tail r (refresh_after_sizing b ppo) fr;
             reports := critical fr |}).
Proof.
  intros b src ppo Hact Hsize. unfold renderSeries. fold b src ppo.
  rewrite Hact. simpl.
  by destruct (N.eqb_spec (Source.size src) 0).
Qed.

(** X1.  After a pass over an active, non-empty source that completes, the
    vector holds the 12-float records of the segments the iterator closed,
    in order and back to back from index 0, followed by whatever the sized
    vector held beyond them; the number drawn is the number of segments. *)
Theorem pass_lays_segments_in_order (r : NyquistSeriesRenderer.t) (p : Pass) :
  let b := NyquistSeriesRenderer.base r in
  let src := XYSeriesRenderer.m_source b in
  let ppo := NyquistSeriesRenderer.m_pointsPerOctave r in
  Source.active src = true -> Source.size src <> 0 ->
  renderSeries r = Some p ->
  drawn p = N.of_nat (length (segments src ppo)) /\
  written_region p = layout (segments src ppo) /\
  XYSeriesRenderer.m_vertices (NyquistSeriesRenderer.base (this p)) =
    layout (segments src ppo)
    ++ drop (12 * length (segments src ppo))
         (m_vertices (enter (XYSeriesRenderer.m_vertices b) ppo)).
Proof.
  intros b src ppo Hact Hsize. rewrite renderSeries_active by done. fold b src ppo.
  destruct (run _ _ _) as [g|] eqn:Hrun; simpl; [|discriminate].
  intros [= <-].
  destruct (run_from_enter _ _ _ _ _ Hrun) as (Hi & Hn & Hv).
  fold (segments src ppo) in Hi, Hn, Hv.
  unfold written_region. cbn [this drawn NyquistSeriesRenderer.base
    XYSeriesRenderer.m_vertices].
  split; [exact Hn|]. split; [|exact Hv].
  rewrite Hv. apply take_app_length'. rewrite layout_length. lia.
Qed.

(** X2.  A pass over an active, non-empty source stays inside the vector
    exactly when the records of the segments the iterator closes fit the
    capacity: one segment more and a store lands outside. *)
Theorem pass_completes_iff_segments_fit (r : NyquistSeriesRenderer.t) :
  let b := NyquistSeriesRenderer.base r in
  let src := XYSeriesRenderer.m_source b in
  let ppo := NyquistSeriesRenderer.m_pointsPerOctave r in
  Source.active src = true -> Source.size src <> 0 ->
  (is_Some (renderSeries r) <->
   12 * N.of_nat (length (segments src ppo)) <= computeMaxBufferSize ppo).
Proof.
  intros b src ppo Hact Hsize. rewrite renderSeries_active by done. fold b src ppo.
  split.
  - destruct (run _ _ _) as [g|] eqn:Hrun; simpl; [|by intros [? ?]].
    intros _.
    destruct (run_from_enter _ _ _ _ _ Hrun) as (Hi & _ & _).
    destruct (run_ok _ _ _ _ (enter_ok _ _) Hrun) as ([_ _ _ Hin] & _ & _ & Hm).
    change (maxBufferSize (enter (XYSeriesRenderer.m_vertices b) ppo))
      with (computeMaxBufferSize ppo) in Hm.
    fold (segments src ppo) in Hi. lia.
  - intros Hfit.
    destruct (run_completes src (iterateForSpline src ppo)
                (enter (XYSeriesRenderer.m_vertices b) ppo) (enter_ok _ _)) as [g Hrun].
    { change (12 * N.of_nat (length (segments src ppo)) <= computeMaxBufferSize ppo)
        in Hfit.
      change (0 + 12 * N.of_nat (length (segments src ppo)) <= computeMaxBufferSize ppo).
      lia. }
    rewrite Hrun. simpl. by eexists.
Qed.

(** X3.  A pass that completes has reported nothing: the "out of range"
    branch of [collected] is never taken before a store has already left
    the vector; and twelve times the number drawn is within the vector. *)
Theorem completed_pass_reports_nothing (r : NyquistSeriesRenderer.t) (p : Pass) :
  renderSeries r = Some p ->
  reports p = [] /\
  12 * drawn p
    <= N.of_nat (length (XYSeriesRenderer.m_vertices (NyquistSeriesRenderer.base (this p)))).
Proof.
  unfold renderSeries.
  destruct (negb _ || _).
  - intros [= <-]. simpl. split; [done|lia].
  - destruct (run _ _ _) as [g|] eqn:Hrun; simpl; [|discriminate].
    intros [= <-]. simpl.
    destruct (run_ok _ _ _ _ (enter_ok _ _) Hrun) as ([Hs _ Hc Hin] & Hrep & _ & _).
    split; [exact Hrep|]. lia.
Qed.

(** X4.  In a completed pass over an active, non-empty source the only
    upload is [glBufferSubData] of the written region, exactly
    [12 * drawn] floats long and so read from inside the vector, and the
    only draw call draws [drawn] points from index 0. *)
Theorem pass_uploads_written_region (r : NyquistSeriesRenderer.t) (p : Pass) :
  let src := XYSeriesRenderer.m_source (NyquistSeriesRenderer.base r) in
  Source.active src = true -> Source.size src <> 0 ->
  renderSeries r = Some p ->
  (forall data, In (BufferSubData data) (calls p) <-> data = written_region p) /\
  length (written_region p) = N.to_nat (12 * drawn p) /\
  (forall first count, In (DrawArrays first count) (calls p)
                       <-> first = 0 /\ count = drawn p).
Proof.
  intros src Hact Hsize. rewrite renderSeries_active by done.
  destruct (run _ _ _) as [g|] eqn:Hrun; simpl; [|discriminate].
  intros [= <-].
  destruct (run_ok _ _ _ _ (enter_ok _ _) Hrun) as ([Hs _ Hc Hin] & _ & _ & _).
  unfold written_region. cbn [this drawn calls NyquistSeriesRenderer.base
    XYSeriesRenderer.m_vertices].
  split; [|split].
  - intros data. unfold gl_tail.
    destruct (refresh_after_sizing _ _); simpl; split.
    all: try (intros H; repeat (destruct H as [H|H]; try discriminate H);
              [by injection H|done]).
    all: intros ->; tauto.
  - rewrite length_take. lia.
  - intros first count. unfold gl_tail.
    destruct (refresh_after_sizing _ _); simpl; split.
    all: try (intros H; repeat (destruct H as [H|H]; try discriminate H);
              [by injection H as <- <-|done]).
    all: intros [-> ->]; tauto.
Qed.

(** X5.  A completed pass over an active, non-empty source allocates
    exactly when the vector had not the size of the capacity or a refresh
    was pending: then it generates the two identities, allocates storage for
    [capacity] floats and declares the three attributes at float offsets 0,
    4 and 8 of a 12-float stride; otherwise it issues none of these calls.
    Either way no refresh is pending afterwards. *)
Theorem pass_allocates_on_size_change (r : NyquistSeriesRenderer.t) (p : Pass) :
  let b := NyquistSeriesRenderer.base r in
  let src := XYSeriesRenderer.m_source b in
  let capacity := computeMaxBufferSize (NyquistSeriesRenderer.m_pointsPerOctave r) in
  Source.active src = true -> Source.size src <> 0 ->
  renderSeries r = Some p ->
  List.filter is_allocation (calls p) =
    (if decide (N.of_nat (length (XYSeriesRenderer.m_vertices b)) <> capacity)
     then [GenBuffers; GenVertexArrays; BufferData capacity;
           VertexAttribPointer 0 4 12 0; VertexAttribPointer 1 4 12 4;
           VertexAttribPointer 2 4 12 8]
     else if XYSeriesRenderer.m_refreshBuffers b
     then [GenBuffers; GenVertexArrays; BufferData capacity;
           VertexAttribPointer 0 4 12 0; VertexAttribPointer 1 4 12 4;
           VertexAttribPointer 2 4 12 8]
     else []) /\
  XYSeriesRenderer.m_refreshBuffers (NyquistSeriesRenderer.base (this p)) = false.
Proof.
  intros b src capacity Hact Hsize. rewrite renderSeries_active by done.
  fold b src.
  destruct (run _ _ _) as [g|] eqn:Hrun; simpl; [|discriminate].
  intros [= <-].
  destruct (run_ok _ _ _ _ (enter_ok _ _) Hrun) as (_ & _ & _ & Hm).
  cbn [enter maxBufferSize] in Hm. fold capacity in Hm.
  split; [|done].
  cbn [calls]. unfold gl_tail, refresh_after_sizing. fold capacity. rewrite Hm.
  case_decide; [done|].
  by destruct (XYSeriesRenderer.m_refreshBuffers b).
Qed.

(** X6.  Rendering again is a fixed point: after a completed pass over an
    active, non-empty source, a second pass completes, leaves the renderer
    (vector included) exactly as the first left it, draws the same number
    and allocates nothing. *)
Theorem second_pass_changes_nothing (r : NyquistSeriesRenderer.t) (p1 : Pass) :
  let src := XYSeriesRenderer.m_source (NyquistSeriesRenderer.base r) in
  Source.active src = true -> Source.size src <> 0 ->
  renderSeries r = Some p1 ->
  exists p2, renderSeries (this p1) = Some p2 /\
    this p2 = this p1 /\ drawn p2 = drawn p1 /\
    List.filter is_allocation (calls p2) = [].
Proof.
  intros src Hact Hsize. rewrite renderSeries_active by done. fold src.
  set (ppo := NyquistSeriesRenderer.m_pointsPerOctave r).
  set (b := NyquistSeriesRenderer.base r).
  destruct (run _ _ _) as [g1|] eqn:Hrun; simpl; [|discriminate].
  intros [= <-].
  rewrite renderSeries_active by done.
  cbn [this NyquistSeriesRenderer.base NyquistSeriesRenderer.m_pointsPerOctave
       XYSeriesRenderer.m_source XYSeriesRenderer.m_vertices XYSeriesRenderer.m_item
       NyquistSeriesRenderer.m_coherenceThreshold NyquistSeriesRenderer.m_coherence].
  destruct (run_ok _ _ _ _ (enter_ok _ _) Hrun) as (Hok1 & _ & Hlen & Hm).
  destruct (run_from_enter _ _ _ _ _ Hrun) as (Hi1 & Hn1 & Hv1).
  assert (N.of_nat (length (m_vertices g1)) = computeMaxBufferSize ppo) as Hsize1.
  { rewrite Hlen. apply enter_size. }
  assert (m_vertices (enter (m_vertices g1) ppo) = m_vertices g1) as Hsame.
  { unfold enter. cbn [m_vertices]. by rewrite decide_False by (by intros ?). }
  destruct (run_in_step src (iterateForSpline src ppo)
              (enter (XYSeriesRenderer.m_vertices b) ppo)
              (enter (m_vertices g1) ppo) g1) as (g2 & Hrun2 & Hloc & _);
    try done; try apply enter_ok.
  rewrite Hrun2. simpl. eexists. split; [reflexivity|].
  destruct (run_from_enter _ _ _ _ _ Hrun2) as (Hi2 & Hn2 & Hv2).
  fold (segments src ppo) in Hi1, Hn1, Hv1, Hi2, Hn2, Hv2.
  assert (m_vertices g2 = m_vertices g1) as Hvv.
  { rewrite Hv2, Hsame. rewrite Hv1 at 2. rewrite Hv1 at 1. f_equal.
    replace (12 * length (segments src ppo))%nat
      with (length (layout (segments src ppo))) at 1
      by (by rewrite layout_length).
    by rewrite drop_app_length. }
  cbn [this drawn calls]. rewrite Hvv.
  split; [done|]. split; [lia|].
  unfold gl_tail, refresh_after_sizing.
  cbn [XYSeriesRenderer.m_vertices XYSeriesRenderer.m_refreshBuffers
       NyquistSeriesRenderer.base NyquistSeriesRenderer.m_pointsPerOctave].
  by rewrite decide_False by (by intros ?).
Qed.

(** X7.  The configuration handed over by [synchronize] is the one the
    next pass runs with: when the parent is a plot, the three members take
    the plot's values, and a completed pass over an active, non-empty source
    sizes the vector for the plot's [pointsPerOctave] and sets the two
    coherence uniforms to the plot's threshold and gate. *)
Theorem synchronize_feeds_next_pass
    (item : QQuickFramebufferObject) (r : NyquistSeriesRenderer.t)
    (plot : NyquistPlot.t) (p : Pass) :
  let b := XYSeriesRenderer_synchronize item (NyquistSeriesRenderer.base r) in
  let r' := synchronize item r in
  parent (XYSeriesRenderer.m_item b) = Some (IsNyquistPlot plot) ->
  Source.active (XYSeriesRenderer.m_source b) = true ->
  Source.size (XYSeriesRenderer.m_source b) <> 0 ->
  renderSeries r' = Some p ->
  NyquistSeriesRenderer.m_pointsPerOctave r' = NyquistPlot.pointsPerOctave plot /\
  NyquistSeriesRenderer.m_coherence r' = NyquistPlot.coherence plot /\
  NyquistSeriesRenderer.m_coherenceThreshold r' = NyquistPlot.coherenceThreshold plot /\
  N.of_nat (length (XYSeriesRenderer.m_vertices (NyquistSeriesRenderer.base (this p))))
    = computeMaxBufferSize (NyquistPlot.pointsPerOctave plot) /\
  List.filter is_coherence_uniform (calls p) =
    [SetUniformCoherenceThreshold (NyquistPlot.coherenceThreshold plot);
     SetUniformCoherenceAlpha (NyquistPlot.coherence plot)].
Proof.
  intros b r' Hparent Hact Hsize.
  assert (r' = NyquistSeriesRenderer.Make b (NyquistPlot.pointsPerOctave plot)
                 (NyquistPlot.coherenceThreshold plot) (NyquistPlot.coherence plot))
    as ->.
  { unfold r', synchronize. fold b. by rewrite Hparent. }
  rewrite renderSeries_active by done.
  cbn [NyquistSeriesRenderer.base NyquistSeriesRenderer.m_pointsPerOctave
       NyquistSeriesRenderer.m_coherence NyquistSeriesRenderer.m_coherenceThreshold].
  destruct (run _ _ _) as [g|] eqn:Hrun; simpl; [|discriminate].
  intros [= <-].
  do 3 (split; [reflexivity|]).
  destruct (run_ok _ _ _ _ (enter_ok _ _) Hrun) as (_ & _ & Hlen & _).
  split.
  - cbn [this NyquistSeriesRenderer.base XYSeriesRenderer.m_vertices].
    rewrite Hlen. apply enter_size.
  - cbn [calls]. unfold gl_tail. by destruct (refresh_after_sizing _ _).
Qed.

(** X8.  [beforeSpline] has no test on [count]: called with [count = 0]
    it divides the magnitude sum by zero, and whatever the phase sum and the
    modulus are, neither component of the value it returns is finite. *)
Theorem beforeSpline_count_zero (v : NyquistSplineValue) (coh : float) :
  F32.is_finite (real (beforeSpline v coh 0)) = false /\
  F32.is_finite (imag (beforeSpline v coh 0)) = false.
Proof.
  unfold beforeSpline. cbn [real imag complex_mul_float].
  change (F32.of_uint 0) with (S754_zero false).
  set (c := complex_div_float (complex_div_float (m_phase v) (S754_zero false)) _).
  destruct (m_magnitude v) as [sm|sm| |sm mm em];
    destruct (real c) as [sx|sx| |sx mx ex];
    destruct (imag c) as [sy|sy| |sy my ey]; by simpl.
Qed.

(** X9.  A renderer that has only been constructed has
    [m_pointsPerOctave = 0] and therefore a capacity of zero floats: its
    pass over an active, non-empty source completes exactly when the
    iterator closes no segment at all. *)
Theorem constructed_renderer_has_no_room (b : XYSeriesRenderer.t) :
  let src := XYSeriesRenderer.m_source b in
  Source.active src = true -> Source.size src <> 0 ->
  (is_Some (renderSeries (NyquistSeriesRenderer_new b)) <-> segments src 0 = []).
Proof.
  intros src Hact Hsize. rewrite renderSeries_active by done.
  cbn [NyquistSeriesRenderer_new NyquistSeriesRenderer.base
       NyquistSeriesRenderer.m_pointsPerOctave]. fold src.
  split.
  - destruct (run _ _ _) as [g|] eqn:Hrun; simpl; [|by intros [? ?]].
    intros _.
    destruct (run_from_enter _ _ _ _ _ Hrun) as (Hi & _ & _).
    destruct (run_ok _ _ _ _ (enter_ok _ _) Hrun) as ([_ _ _ Hin] & _ & _ & Hm).
    change (maxBufferSize (enter (XYSeriesRenderer.m_vertices b) 0)) with 0 in Hm.
    fold (segments src 0) in Hi.
    destruct (segments src 0); [done|]. simpl in Hi. lia.
  - intros Hnone.
    destruct (run_completes src (iterateForSpline src 0)
                (enter (XYSeriesRenderer.m_vertices b) 0) (enter_ok _ _)) as [g Hrun].
    { change (0 + 12 * N.of_nat (length (segments src 0)) <= 0).
      rewrite Hnone. simpl. lia. }
    rewrite Hrun. simpl. by eexists.
Qed.

(** X10.  A pass that completes draws at most [12 * m_pointsPerOctave]
    segments, also when the capacity product has wrapped. *)
Theorem drawn_at_most_twelve_per_point (r : NyquistSeriesRenderer.t) (p : Pass) :
  renderSeries r = Some p ->
  drawn p <= 12 * NyquistSeriesRenderer.m_pointsPerOctave r.
Proof.
  unfold renderSeries.
  destruct (negb _ || _).
  - intros [= <-]. simpl. lia.
  - destruct (run _ _ _) as [g|] eqn:Hrun; simpl; [|discriminate].
    intros [= <-]. simpl.
    destruct (run_ok _ _ _ _ (enter_ok _ _) Hrun) as ([_ _ Hc Hin] & _ & _ & Hm).
    change (maxBufferSize (enter _ ?ppo)) with (computeMaxBufferSize ppo) in Hm.
    assert (computeMaxBufferSize (NyquistSeriesRenderer.m_pointsPerOctave r)
            <= NyquistSeriesRenderer.m_pointsPerOctave r * 12 * 12) as Hle.
    { unfold computeMaxBufferSize, wrap32.
      etransitivity; [apply N.Div0.mod_le|].
      apply N.mul_le_mono_r. apply N.Div0.mod_le. }
    lia.
Qed.

(** X11.  The configuration survives a frame without its owner: after a
    [synchronize] that found the plot, a later [synchronize] whose item has
    no parent, or a parent of another kind, leaves the three members at the
    plot's values. *)
Theorem configuration_survives_missing_owner
    (item1 item2 : QQuickFramebufferObject) (r : NyquistSeriesRenderer.t)
    (plot : NyquistPlot.t) :
  let b1 := XYSeriesRenderer_synchronize item1 (NyquistSeriesRenderer.base r) in
  let r1 := synchronize item1 r in
  let b2 := XYSeriesRenderer_synchronize item2 (NyquistSeriesRenderer.base r1) in
  let r2 := synchronize item2 r1 in
  parent (XYSeriesRenderer.m_item b1) = Some (IsNyquistPlot plot) ->
  parent (XYSeriesRenderer.m_item b2) = None \/
  parent (XYSeriesRenderer.m_item b2) = Some OtherObject ->
  NyquistSeriesRenderer.m_pointsPerOctave r2 = NyquistPlot.pointsPerOctave plot /\
  NyquistSeriesRenderer.m_coherence r2 = NyquistPlot.coherence plot /\
  NyquistSeriesRenderer.m_coherenceThreshold r2 = NyquistPlot.coherenceThreshold plot.
Proof.
  intros b1 r1 b2 r2 Hplot Hnone.
  assert (r1 = NyquistSeriesRenderer.Make b1 (NyquistPlot.pointsPerOctave plot)
                 (NyquistPlot.coherenceThreshold plot) (NyquistPlot.coherence plot))
    as Hr1.
  { unfold r1, synchronize. fold b1. by rewrite Hplot. }
  unfold r2, synchronize. fold b2.
  destruct Hnone as [-> | ->]; by rewrite Hr1.
Qed.

End Renderer.

(** * Evaluation on concrete inputs *)

(** Two bins of phase [(1, 0)] and magnitude [1] close to the control point
    [(1, 0)]. *)
Example unit_band_control_point :
  beforeSpline Sample.abs
    (value (fold_band (Sample.unit_source 2) [0; 1] (enter [] 1)))
    (coherence (fold_band (Sample.unit_source 2) [0; 1] (enter [] 1))) 2
  = Complex Sample.one F32.zero.
Proof. vm_compute. reflexivity. Qed.

(** With [pointsPerOctave = 1] the vector holds 144 floats; 48 one-bin bands
    fill it with 12 segments and nothing is reported. *)
Example twelve_segments_fill_the_buffer :
  option_map (fun p => (drawn p, reports p,
                        length (XYSeriesRenderer.m_vertices
                                  (NyquistSeriesRenderer.base (this p)))))
    (renderSeries Sample.abs Sample.iterate
       (Sample.renderer (Sample.unit_source 48) 1 F32.zero false []))
  = Some (12, [], 144%nat).
Proof. vm_compute. reflexivity. Qed.

(** C1.  With [pointsPerOctave = 1] the capacity is 144 floats.  After the
    twelve segments of a 48-band pass the cursor stands at 144: a further
    segment would occupy floats 144 to 155, yet the guard [i > maxBufferSize]
    does not fire and [collected] stores outside the vector instead of
    reporting and dropping the write; a pass of 52 bands runs into exactly
    that store. *)
Theorem collected_guard_misses_full_buffer :
  let src := Sample.unit_source 48 in
  exists fr,
    run Sample.abs src (Sample.iterate src 1) (enter [] 1) = Some fr /\
    N.of_nat (length (m_vertices fr)) = 144 /\
    maxBufferSize fr = 144 /\ i fr = 144 /\ verticiesCount fr = 12 /\
    maxBufferSize fr < i fr + 12 /\
    (maxBufferSize fr <? i fr) = false /\
    (forall f1 f2 ac c,
       collected f1 f2 ac c fr = None /\
       collected f1 f2 ac c fr <> Some (dropped fr)) /\
    renderSeries Sample.abs Sample.iterate
      (Sample.renderer (Sample.unit_source 52) 1 F32.zero false []) = None.
Proof.
  intros src.
  destruct (run Sample.abs src (Sample.iterate src 1) (enter [] 1)) as [fr|] eqn:Hrun;
    [|vm_compute in Hrun; discriminate].
  exists fr. split; [reflexivity|].
  destruct (run_ok _ _ _ _ _ (enter_ok [] 1) Hrun) as (Hok & _ & _ & _).
  assert (maxBufferSize fr = 144 /\ i fr = 144 /\ verticiesCount fr = 12)
    as (Hm & Hi & Hn).
  { vm_compute in Hrun. injection Hrun as <-. by vm_compute. }
  destruct Hok as [Hsize Hmax Hcur Hin].
  split; [by rewrite Hsize|].
  assert (forall f1 f2 ac c, collected f1 f2 ac c fr = None) as Hnone.
  { intros. apply collected_unguarded_overflow; [by split|]. by rewrite Hm, Hi. }
  clear Hrun. rewrite Hm, Hi, Hn.
  do 5 (split; [reflexivity|]).
  split; [|vm_compute; reflexivity].
  intros. rewrite Hnone. split; [reflexivity|discriminate].
Qed.

(** C2, the claim as written fails: for [pointsPerOctave = 29826162] the
    product 29826162 * 12 * 12 = 4294967328 does not fit 32 bits and the
    capacity computed is 32. *)
Lemma capacity_formula_overflows :
  computeMaxBufferSize 29826162 = 32 /\
  computeMaxBufferSize 29826162 <> 29826162 * maxOctaveBands * pointsPerSegment.
Proof. split; [by vm_compute|]. by vm_compute. Qed.

(** ** The theorems at concrete inputs *)

Lemma capacity_formula_witness :
  let r := Sample.renderer (Sample.unit_source 8) 1 F32.zero false [] in
  let p := match renderSeries Sample.abs Sample.iterate r with
           | Some p => p
           | None => MkPass r 0 [] []
           end in
  (1 * maxOctaveBands * pointsPerSegment < 2 ^ 32 /\
   computeMaxBufferSize 1 = 1 * maxOctaveBands * pointsPerSegment) /\
  (N.of_nat (length (@nil float)) <> computeMaxBufferSize 1 /\
   refresh_after_sizing (NyquistSeriesRenderer.base r) 1 = true) /\
  (renderSeries Sample.abs Sample.iterate r = Some p /\
   N.of_nat (length (XYSeriesRenderer.m_vertices (NyquistSeriesRenderer.base (this p))))
     = computeMaxBufferSize 1).
Proof.
  intros r p.
  destruct (capacity_formula_mod_2_32 Sample.abs Sample.iterate r p)
    as (_ & Hexact & _ & _ & Hresize & Hpass).
  assert (1 * maxOctaveBands * pointsPerSegment < 2 ^ 32) as Hsmall
    by (vm_compute; reflexivity).
  assert (N.of_nat (length (@nil float)) <> computeMaxBufferSize 1) as Hne
    by (vm_compute; discriminate).
  assert (renderSeries Sample.abs Sample.iterate r = Some p) as Hrun
    by (vm_compute; reflexivity).
  split; [exact (conj Hsmall (Hexact Hsmall))|].
  split; [exact (conj Hne (proj2 (Hresize Hne)))|].
  split; [exact Hrun|].
  apply Hpass; [reflexivity|vm_compute; discriminate|exact Hrun].
Defined.

Lemma band_close_witness :
  let src := Sample.unit_source 2 in
  let g := fold_band src [0; 1] (enter [] 1) in
  [0; 1] <> [] /\
  beforeSpline Sample.abs (value g) (coherence g) 2
    = controlPoint Sample.abs (phaseSum src [0; 1]) (magnitudeSum src [0; 1]) 2.
Proof.
  intros src g.
  assert ([0; 1] <> @nil N) as Hne by discriminate.
  split; [exact Hne|].
  exact (proj2 (proj2 (proj2
    (band_close_control_point Sample.abs src [0; 1] (enter [] 1)
       Hne eq_refl eq_refl)))).
Defined.

Lemma degenerate_direction_witness :
  let fr := fold_band Sample.cancelling_source [0; 1] (enter [] 1) in
  let mean := complex_div_float (m_phase (value fr)) (F32.of_uint 2) in
  let p := beforeSpline Sample.abs (value fr) (coherence fr) 2 in
  F32.eqb (Sample.abs mean) F32.zero = true /\
  F32.is_nan (real p) = true /\ F32.is_nan (imag p) = true.
Proof.
  intros fr mean p.
  assert (F32.eqb (Sample.abs mean) F32.zero = true) as Hzero
    by (vm_compute; reflexivity).
  destruct (degenerate_direction_propagates Sample.abs Sample.cancelling_source
              fr 2 (fun _ => Return) Hzero) as (_ & _ & Hre & Him & _).
  split; [exact Hzero|].
  split; [apply Hre|apply Him]; vm_compute; reflexivity.
Defined.

Lemma synchronize_witness :
  let r := Sample.renderer (Sample.unit_source 8) 12 Sample.one true [] in
  let item := Sample.item_of (Some OtherObject) in
  NyquistSeriesRenderer.m_pointsPerOctave (synchronize Sample.base_synchronize item r) = 12 /\
  NyquistSeriesRenderer.m_coherence (synchronize Sample.base_synchronize item r) = true /\
  NyquistSeriesRenderer.m_coherenceThreshold (synchronize Sample.base_synchronize item r)
    = Sample.one.
Proof.
  intros r item.
  destruct (synchronize_keeps_configuration Sample.base_synchronize item r
              (or_intror eq_refl)) as (r' & <- & H).
  exact H.
Defined.

Lemma collected_record_witness :
  let fr := enter [] 1 in
  let fr' := written Sample.points Sample.controls fr in
  collected F32.zero F32.zero Sample.points Sample.controls fr = Some fr' /\
  take 12 (m_vertices fr') =
    [Sample.one; Sample.two; Sample.three; Sample.one;
     Sample.two; Sample.three; Sample.one; Sample.one;
     Sample.one; Sample.two; Sample.three; Sample.one] /\
  i fr' = 12 /\ verticiesCount fr' = 1.
Proof.
  intros fr fr'.
  assert (collected F32.zero F32.zero Sample.points Sample.controls fr = Some fr') as H
    by (vm_compute; reflexivity).
  split; [exact H|].
  apply (collected_record_layout F32.zero F32.zero Sample.points Sample.controls fr fr').
  - apply enter_ok.
  - vm_compute. discriminate.
  - exact H.
Defined.

Lemma collected_reset_witness :
  let fr := fold_band (Sample.unit_source 4) [0; 1] (enter [] 1) in
  let fr' := written Sample.points Sample.controls fr in
  m_magnitude (value fr) = Sample.two /\
  collected F32.zero F32.zero Sample.points Sample.controls fr = Some fr' /\
  value (fold_band (Sample.unit_source 4) [2; 3] fr')
    = MkValue (phaseSum (Sample.unit_source 4) [2; 3])
              (magnitudeSum (Sample.unit_source 4) [2; 3]).
Proof.
  intros fr fr'.
  assert (collected F32.zero F32.zero Sample.points Sample.controls fr = Some fr') as H
    by (vm_compute; reflexivity).
  split; [vm_compute; reflexivity|].
  split; [exact H|].
  refine (proj1 (proj2 (proj2 (proj2
    (collected_resets_accumulator (Sample.unit_source 4) F32.zero F32.zero
       Sample.points Sample.controls fr fr' [2; 3] _ H))))).
  vm_compute. discriminate.
Defined.

Lemma render_twice_witness :
  let r := Sample.renderer (Sample.unit_source 8) 1 F32.zero false [] in
  let p1 := match renderSeries Sample.abs Sample.iterate r with
            | Some p => p
            | None => MkPass r 0 [] []
            end in
  renderSeries Sample.abs Sample.iterate r = Some p1 /\
  drawn p1 = 2 /\
  exists p2, renderSeries Sample.abs Sample.iterate (this p1) = Some p2 /\
    drawn p2 = drawn p1 /\ written_region p2 = written_region p1.
Proof.
  intros r p1.
  assert (renderSeries Sample.abs Sample.iterate r = Some p1) as H
    by (vm_compute; reflexivity).
  split; [exact H|].
  split; [vm_compute; reflexivity|].
  exact (render_twice_same_output Sample.abs Sample.iterate r p1 H).
Defined.

Lemma dropped_write_witness :
  let fr := Sample.overrun_frame in
  maxBufferSize fr < i fr /\
  exists fr', collected F32.zero F32.zero Sample.points Sample.controls fr = Some fr' /\
    critical fr' = ["out of range"%string] /\
    value fr' = value fr /\ coherence fr' = coherence fr /\
    m_magnitude (value (fold_band (Sample.unit_source 1) [0] fr'))
      = F32.add Sample.three Sample.one.
Proof.
  intros fr.
  assert (maxBufferSize fr < i fr) as Hfire by (vm_compute; reflexivity).
  split; [exact Hfire|].
  destruct (dropped_write_keeps_accumulator (Sample.unit_source 1) F32.zero F32.zero
              Sample.points Sample.controls fr [0] Hfire)
    as (fr' & Hc & Hrep & Hv & Hcoh & _ & _ & _ & Hsum & _).
  exists fr'. split; [exact Hc|]. split; [exact Hrep|].
  split; [exact Hv|]. split; [exact Hcoh|].
  rewrite Hsum. reflexivity.
Defined.

(** ** The further properties at concrete inputs *)

Lemma pass_lays_segments_witness :
  let r := Sample.renderer (Sample.unit_source 8) 1 F32.zero false [] in
  let p := match renderSeries Sample.abs Sample.iterate r with
           | Some p => p
           | None => MkPass r 0 [] []
           end in
  renderSeries Sample.abs Sample.iterate r = Some p /\
  drawn p = 2 /\
  written_region p = layout (segments Sample.abs Sample.iterate (Sample.unit_source 8) 1).
Proof.
  intros r p.
  assert (renderSeries Sample.abs Sample.iterate r = Some p) as H
    by (vm_compute; reflexivity).
  assert (Source.size (Sample.unit_source 8) <> 0) as Hsize
    by (vm_compute; discriminate).
  destruct (pass_lays_segments_in_order Sample.abs Sample.iterate r p eq_refl Hsize H)
    as (Hd & Hw & _).
  split; [exact H|]. split; [|exact Hw].
  rewrite Hd. vm_compute. reflexivity.
Defined.

Lemma pass_completes_witness :
  let r := Sample.renderer (Sample.unit_source 8) 1 F32.zero false [] in
  12 * N.of_nat (length (segments Sample.abs Sample.iterate (Sample.unit_source 8) 1))
    <= computeMaxBufferSize 1 /\
  is_Some (renderSeries Sample.abs Sample.iterate r).
Proof.
  intros r.
  assert (Source.size (Sample.unit_source 8) <> 0) as Hsize
    by (vm_compute; discriminate).
  assert (12 * N.of_nat (length (segments Sample.abs Sample.iterate
                                   (Sample.unit_source 8) 1))
          <= computeMaxBufferSize 1) as Hfit
    by (vm_compute; discriminate).
  split; [exact Hfit|].
  exact (proj2 (pass_completes_iff_segments_fit Sample.abs Sample.iterate r
                  eq_refl Hsize) Hfit).
Defined.

Lemma completed_pass_witness :
  let r := Sample.renderer (Sample.unit_source 8) 1 F32.zero false [] in
  let p := match renderSeries Sample.abs Sample.iterate r with
           | Some p => p
           | None => MkPass r 0 [] []
           end in
  renderSeries Sample.abs Sample.iterate r = Some p /\
  reports p = [] /\
  12 * drawn p
    <= N.of_nat (length (XYSeriesRenderer.m_vertices (NyquistSeriesRenderer.base (this p)))).
Proof.
  intros r p.
  assert (renderSeries Sample.abs Sample.iterate r = Some p) as H
    by (vm_compute; reflexivity).
  split; [exact H|].
  exact (completed_pass_reports_nothing Sample.abs Sample.iterate r p H).
Defined.

Lemma pass_uploads_witness :
  let r := Sample.renderer (Sample.unit_source 8) 1 F32.zero false [] in
  let p := match renderSeries Sample.abs Sample.iterate r with
           | Some p => p
           | None => MkPass r 0 [] []
           end in
  renderSeries Sample.abs Sample.iterate r = Some p /\
  In (BufferSubData (written_region p)) (calls p) /\
  length (written_region p) = 24%nat /\
  In (DrawArrays 0 2) (calls p).
Proof.
  intros r p.
  assert (renderSeries Sample.abs Sample.iterate r = Some p) as H
    by (vm_compute; reflexivity).
  assert (Source.size (Sample.unit_source 8) <> 0) as Hsize
    by (vm_compute; discriminate).
  destruct (pass_uploads_written_region Sample.abs Sample.iterate r p eq_refl Hsize H)
    as (Hup & Hlen & Hdraw).
  split; [exact H|].
  split; [exact (proj2 (Hup _) eq_refl)|].
  split; [rewrite Hlen; vm_compute; reflexivity|].
  apply (proj2 (Hdraw 0 2)). split; [reflexivity|vm_compute; reflexivity].
Defined.

Lemma pass_allocates_witness :
  let r := Sample.renderer (Sample.unit_source 8) 1 F32.zero false [] in
  let p := match renderSeries Sample.abs Sample.iterate r with
           | Some p => p
           | None => MkPass r 0 [] []
           end in
  renderSeries Sample.abs Sample.iterate r = Some p /\
  List.filter is_allocation (calls p) =
    [GenBuffers; GenVertexArrays; BufferData 144;
     VertexAttribPointer 0 4 12 0; VertexAttribPointer 1 4 12 4;
     VertexAttribPointer 2 4 12 8].
Proof.
  intros r p.
  assert (renderSeries Sample.abs Sample.iterate r = Some p) as H
    by (vm_compute; reflexivity).
  assert (Source.size (Sample.unit_source 8) <> 0) as Hsize
    by (vm_compute; discriminate).
  split; [exact H|].
  exact (proj1 (pass_allocates_on_size_change Sample.abs Sample.iterate r p
                  eq_refl Hsize H)).
Defined.

Lemma second_pass_witness :
  let r := Sample.renderer (Sample.unit_source 8) 1 F32.zero false [] in
  let p1 := match renderSeries Sample.abs Sample.iterate r with
            | Some p => p
            | None => MkPass r 0 [] []
            end in
  renderSeries Sample.abs Sample.iterate r = Some p1 /\
  exists p2, renderSeries Sample.abs Sample.iterate (this p1) = Some p2 /\
    this p2 = this p1 /\ drawn p2 = drawn p1 /\
    List.filter is_allocation (calls p2) = [].
Proof.
  intros r p1.
  assert (renderSeries Sample.abs Sample.iterate r = Some p1) as H
    by (vm_compute; reflexivity).
  assert (Source.size (Sample.unit_source 8) <> 0) as Hsize
    by (vm_compute; discriminate).
  split; [exact H|].
  exact (second_pass_changes_nothing Sample.abs Sample.iterate r p1 eq_refl Hsize H).
Defined.

Lemma synchronize_feeds_witness :
  let plot := NyquistPlot.Make 1 true Sample.one in
  let item := Sample.item_of (Some (IsNyquistPlot plot)) in
  let r := Sample.renderer (Sample.unit_source 8) 0 F32.zero false [] in
  let r' := synchronize Sample.base_synchronize item r in
  let p := match renderSeries Sample.abs Sample.iterate r' with
           | Some p => p
           | None => MkPass r' 0 [] []
           end in
  renderSeries Sample.abs Sample.iterate r' = Some p /\
  NyquistSeriesRenderer.m_pointsPerOctave r' = 1 /\
  N.of_nat (length (XYSeriesRenderer.m_vertices (NyquistSeriesRenderer.base (this p))))
    = computeMaxBufferSize 1 /\
  List.filter is_coherence_uniform (calls p) =
    [SetUniformCoherenceThreshold Sample.one; SetUniformCoherenceAlpha true].
Proof.
  intros plot item r r' p.
  assert (renderSeries Sample.abs Sample.iterate r' = Some p) as H
    by (vm_compute; reflexivity).
  assert (Source.size (Sample.unit_source 8) <> 0) as Hsize
    by (vm_compute; discriminate).
  destruct (synchronize_feeds_next_pass Sample.abs Sample.iterate
              Sample.base_synchronize item r plot p eq_refl eq_refl Hsize H)
    as (Hppo & _ & _ & Hlen & Hun).
  split; [exact H|]. split; [exact Hppo|]. split; [exact Hlen|exact Hun].
Defined.

Lemma constructed_renderer_witness :
  let b := XYSeriesRenderer.Make (Sample.item_of None) (Sample.unit_source 3) [] true in
  segments Sample.abs Sample.iterate (Sample.unit_source 3) 0 = [] /\
  is_Some (renderSeries Sample.abs Sample.iterate (NyquistSeriesRenderer_new b)).
Proof.
  intros b.
  assert (Source.size (Sample.unit_source 3) <> 0) as Hsize
    by (vm_compute; discriminate).
  assert (segments Sample.abs Sample.iterate (Sample.unit_source 3) 0 = []) as Hnone
    by (vm_compute; reflexivity).
  split; [exact Hnone|].
  exact (proj2 (constructed_renderer_has_no_room Sample.abs Sample.iterate b
                  eq_refl Hsize) Hnone).
Defined.

Lemma drawn_bound_witness :
  let r := Sample.renderer (Sample.unit_source 48) 1 F32.zero false [] in
  let p := match renderSeries Sample.abs Sample.iterate r with
           | Some p => p
           | None => MkPass r 0 [] []
           end in
  renderSeries Sample.abs Sample.iterate r = Some p /\
  drawn p = 12 /\ drawn p <= 12 * 1.
Proof.
  intros r p.
  assert (renderSeries Sample.abs Sample.iterate r = Some p) as H
    by (vm_compute; reflexivity).
  split; [exact H|]. split; [vm_compute; reflexivity|].
  exact (drawn_at_most_twelve_per_point Sample.abs Sample.iterate r p H).
Defined.

Lemma configuration_survives_witness :
  let plot := NyquistPlot.Make 12 true Sample.one in
  let r := Sample.renderer (Sample.unit_source 8) 0 F32.zero false [] in
  let r1 := synchronize Sample.base_synchronize
              (Sample.item_of (Some (IsNyquistPlot plot))) r in
  let r2 := synchronize Sample.base_synchronize (Sample.item_of None) r1 in
  NyquistSeriesRenderer.m_pointsPerOctave r2 = 12 /\
  NyquistSeriesRenderer.m_coherence r2 = true /\
  NyquistSeriesRenderer.m_coherenceThreshold r2 = Sample.one.
Proof.
  intros plot r r1 r2.
  exact (configuration_survives_missing_owner Sample.base_synchronize
           (Sample.item_of (Some (IsNyquistPlot plot))) (Sample.item_of None) r plot
           eq_refl (or_introl eq_refl)).
Defined.
